(** * Planet: Keplerian propagation of one celestial body

    A shallow embedding of [src/components/Planet.tsx], the React component
    that places one body of the scene on its Keplerian orbit every frame,
    samples the orbit curve for display and fades the body with the distance
    to the camera.

    Numbers.  JavaScript numbers are read as real numbers ([R]): rounding,
    overflow and signed zeros are not modelled.  The one not-a-number value
    the component tests for, the result of [solveKepler], is modelled by
    [None] in [option R].  Where JavaScript would give not-a-number or an
    infinity for another reason (the square root of a negative number, a
    division by zero), the real-number functions give some real number
    instead: statements about positions are made for eccentricities in the
    range of the formulas of the orbit type, and statements about the
    opacity thresholds for a positive semi-major axis and scale.

    What is outside [Planet.tsx].  [solveKepler] lives in [utils/kepler],
    which is not part of the sources at hand; the component is embedded with
    the solver as a parameter, and a model of the solver that follows the
    specification is given separately ([KeplerSpec]).  The operations of
    three.js on orientations (quaternions) are parameters as well. *)

From Stdlib Require Import Reals Lra List Bool String RNsatz.
Import ListNotations.
Open Scope R_scope.

(** ** Numbers and vectors *)

(** [Math.atan2 y x] on real numbers. *)
Definition atan2 (y x : R) : R :=
  if Rgt_dec x 0 then atan (y / x)
  else if Rlt_dec x 0 then
    if Rge_dec y 0 then atan (y / x) + PI else atan (y / x) - PI
  else if Rgt_dec y 0 then PI / 2
  else if Rlt_dec y 0 then - (PI / 2)
  else 0.

(** [THREE.MathUtils.clamp (value, min, max)] is
    [Math.max (min, Math.min (max, value))]. *)
Definition clamp (value min max : R) : R := Rmax min (Rmin max value).

(** [THREE.MathUtils.lerp (x, y, t)] is [(1 - t) * x + t * y]. *)
Definition lerp (x y t : R) : R := (1 - t) * x + t * y.

Record Vector3 : Type := mkVector3 { vx : R; vy : R; vz : R }.

(** [v.length ()] *)
Definition length3 (v : Vector3) : R :=
  sqrt (vx v * vx v + vy v * vy v + vz v * vz v).

(** [a.distanceTo (b)] *)
Definition distanceTo (a b : Vector3) : R :=
  sqrt ((vx a - vx b) * (vx a - vx b)
        + (vy a - vy b) * (vy a - vy b)
        + (vz a - vz b) * (vz a - vz b)).

(** [v.multiplyScalar (s)] *)
Definition multiplyScalar (v : Vector3) (s : R) : Vector3 :=
  mkVector3 (vx v * s) (vy v * s) (vz v * s).

(** [v.normalize ()] divides by [v.length () || 1]. *)
Definition normalize (v : Vector3) : Vector3 :=
  let l := length3 v in
  multiplyScalar v (1 / (if Req_dec_T l 0 then 1 else l)).

(** The orientation of a scene object, a [THREE.Quaternion]. *)
Record Quaternion : Type := mkQuaternion { qx : R; qy : R; qz : R; qw : R }.

(** ** The data of the component *)

Inductive OrbitType : Type := elliptical | parabolic | hyperbolic.

Definition OrbitType_eq_dec (a b : OrbitType) : {a = b} + {a <> b}.
Proof. decide equality. Defined.

Record Rings : Type := mkRings {
  innerRadius : R;
  outerRadius : R;
  ringRotationAxis : Vector3;
  ringRotationSpeed : R
}.

(** The properties the component is rendered with ([planetData]). *)
Module Props.
Record t : Type := mk {
  name : string;
  type : string;
  radius : R;
  rotationSpeed : R;
  rotationAxis : Vector3;
  semiMajorAxis : R;
  semiMajorAxisRate : R;
  eccentricity : R;
  eccentricityRate : R;
  inclination : R;
  inclinationRate : R;
  longitudeOfAscendingNode : R;
  longitudeOfAscendingNodeRate : R;
  argumentOfPeriapsis : R;
  argumentOfPeriapsisRate : R;
  meanAnomalyAtEpoch : R;
  meanAnomalyAtEpochRate : R;
  orbitalPeriod : R;
  rings : option Rings
}.
End Props.

(** The object held by [keplerElementsRef.current]: the six drifting
    elements and the opacity computed last. *)
Module Elements.
Record t : Type := mk {
  semiMajorAxis : R;
  eccentricity : R;
  inclination : R;
  longitudeOfAscendingNode : R;
  argumentOfPeriapsis : R;
  meanAnomalyAtEpoch : R;
  opacity : R
}.

(** The six orbital elements of the record, without the opacity. *)
Definition six (el : t) : R * R * R * R * R * R :=
  (semiMajorAxis el, eccentricity el, inclination el,
   longitudeOfAscendingNode el, argumentOfPeriapsis el,
   meanAnomalyAtEpoch el).
End Elements.

(** The angles in radians ([updatedElementsRad], [updatedRad]). *)
Record ElementsRad : Type := mkRad {
  iRad : R;
  ORad : R;
  wRad : R;
  M0Rad : R
}.

(** A descendant of the outer group as [traverse] sees it. *)
Record Child : Type := mkChild {
  isMesh : bool;
  childName : string;
  childType : string;
  materialOpacity : R;
  materialTransparent : bool
}.

(** The outer [<group ref={groupRef}>]. *)
Record Group : Type := mkGroup {
  visible : bool;
  children : list Child
}.

(** What the hooks of one mounted component hold between two frames.
    A reference that React has not attached is [None]. *)
Record State : Type := mkState {
  keplerElementsRef : Elements.t;
  orbitType : OrbitType;
  updatedElementsRad : ElementsRad;
  groupRef : option Group;
  planetGroupRef : option Vector3;
  planetRef : option Quaternion;
  ringRef : option Quaternion;
  labelRef : option Vector3;
  textFontSize : R
}.

(** What [useSpace] and [useThree] hand to the component. *)
Record Env : Type := mkEnv {
  speedFactor : R;
  AU : R;
  cameraType : string;
  cameraPosition : Vector3;
  thisFocusedBody : bool
}.

(** ** The memoised values *)

(** [deg2rad] *)
Definition deg2rad (deg : R) : R := (deg * PI) / 180.

(** [n], the mean motion. *)
Definition n (p : Props.t) : R := (2 * PI) / (Props.orbitalPeriod p * 86400).

(** [new THREE.Vector3 (...rotationAxis).normalize ()] *)
Definition rotationAxisVector (p : Props.t) : Vector3 :=
  normalize (Props.rotationAxis p).

(** The callback of [orbitType]'s [useMemo], on an eccentricity. *)
Definition classify (e : R) : OrbitType :=
  if Rlt_dec e 1 then elliptical
  else if Req_dec_T e 1 then parabolic
  else hyperbolic.

(** The callback of [updatedElementsRad]'s [useMemo], and [updatedRad] of
    [useFrame]. *)
Definition toRad (elements : Elements.t) : ElementsRad :=
  {| iRad := deg2rad (Elements.inclination elements);
     ORad := deg2rad (Elements.longitudeOfAscendingNode elements);
     wRad := deg2rad (Elements.argumentOfPeriapsis elements);
     M0Rad := deg2rad (Elements.meanAnomalyAtEpoch elements) |}.

(** The initial value of [keplerElementsRef]. *)
Definition initialElements (p : Props.t) : Elements.t :=
  {| Elements.semiMajorAxis := Props.semiMajorAxis p;
     Elements.eccentricity := Props.eccentricity p;
     Elements.inclination := Props.inclination p;
     Elements.longitudeOfAscendingNode := Props.longitudeOfAscendingNode p;
     Elements.argumentOfPeriapsis := Props.argumentOfPeriapsis p;
     Elements.meanAnomalyAtEpoch := Props.meanAnomalyAtEpoch p;
     Elements.opacity := 0 |}.

(** The first render: the reference is initialised from the properties, and
    the two memoised values, whose dependency lists never change
    ([[]] and [[deg2rad]]), are computed from it once and for all. The scene
    references are whatever React attaches.  The properties stay the same
    for the life of the component: the effect that assigns the reference
    anew when the element properties change (and does nothing else at the
    first render) is left out. *)
Definition mount (p : Props.t) (g : option Group) (pg : option Vector3)
    (pl rg : option Quaternion) (lb : option Vector3) : State :=
  {| keplerElementsRef := initialElements p;
     orbitType := classify (Elements.eccentricity (initialElements p));
     updatedElementsRad := toRad (initialElements p);
     groupRef := g;
     planetGroupRef := pg;
     planetRef := pl;
     ringRef := rg;
     labelRef := lb;
     textFontSize := 0 |}.

(** ** The component, for any solver *)

Section Component.

(** [solveKepler (M, e)] of [utils/kepler]; [None] is its not-a-number. *)
Variable solveKepler : R -> R -> option R.

(** three.js: [new Quaternion ().setFromEuler (new Euler (x, y, z, 'XYZ'))],
    [v.applyQuaternion (q)], [object.rotateOnAxis (axis, angle)] and
    [object.lookAt (target)] for an object placed at a given position. *)
Variable setFromEuler : R -> R -> R -> Quaternion.
Variable applyQuaternion : Vector3 -> Quaternion -> Vector3.
Variable rotateOnAxis : Quaternion -> Vector3 -> R -> Quaternion.
Variable lookAt : Quaternion -> Vector3 -> Vector3 -> Quaternion.

(** *** Position on the orbit *)

(** True anomaly and radius from the eccentric anomaly, as both
    [orbitPoints] and [useFrame] compute them: the branch is chosen by the
    memoised [orbitType], the formulas use the eccentricity [e] and the
    semi-major axis [a] read from the reference. *)
Definition anomalyRadius (ot : OrbitType) (e a E : R) : R * R :=
  match ot with
  | elliptical | parabolic =>
      (2 * atan2 (sqrt (1 + e) * sin (E / 2)) (sqrt (1 - e) * cos (E / 2)),
       a * (1 - e * cos E))
  | hyperbolic =>
      (2 * atan2 (sqrt (e + 1) * sinh (E / 2)) (sqrt (e - 1) * cosh (E / 2)),
       a * (e * cosh E - 1))
  end.

(** Rotation of the orbital-plane coordinates into the inertial frame. *)
Definition toInertial (rad : ElementsRad) (xOrbital yOrbital : R) : Vector3 :=
  let cosO := cos (ORad rad) in
  let sinO := sin (ORad rad) in
  let cosi := cos (iRad rad) in
  let sini := sin (iRad rad) in
  let cosw := cos (wRad rad) in
  let sinw := sin (wRad rad) in
  let x :=
    (cosO * cosw - sinO * sinw * cosi) * xOrbital +
    (- cosO * sinw - sinO * cosw * cosi) * yOrbital in
  let y :=
    (sinO * cosw + cosO * sinw * cosi) * xOrbital +
    (- sinO * sinw + cosO * cosw * cosi) * yOrbital in
  let z := sinw * sini * xOrbital + cosw * sini * yOrbital in
  mkVector3 x y z.

(** The point for eccentric anomaly [E]: [(x * AU, y * AU, z * AU)]. *)
Definition pointAt (ot : OrbitType) (el : Elements.t) (rad : ElementsRad)
    (au E : R) : Vector3 :=
  let e := Elements.eccentricity el in
  let '(nu, r) := anomalyRadius ot e (Elements.semiMajorAxis el) E in
  let xOrbital := r * cos nu in
  let yOrbital := r * sin nu in
  let v := toInertial rad xOrbital yOrbital in
  mkVector3 (vx v * au) (vy v * au) (vz v * au).

(** *** [orbitPoints] *)

Definition segments : nat := 128.

(** [maxIdx], the last index of the loop. *)
Definition maxIdx (ot : OrbitType) : nat :=
  match ot with
  | hyperbolic => 64
  | _ => segments
  end.

(** The mean anomaly [M] of the sample of index [idx]. *)
Definition sampleAnomaly (ot : OrbitType) (idx : nat) : R :=
  match ot with
  | hyperbolic => (INR idx - INR segments / 2) * 0.1
  | _ => (2 * PI * INR idx) / INR segments
  end.

(** The body of the loop: [None] is the [continue] taken when the solver
    gives not-a-number, [Some] the point pushed. *)
Definition samplePoint (au : R) (s : State) (idx : nat) : option Vector3 :=
  let e := Elements.eccentricity (keplerElementsRef s) in
  let M := sampleAnomaly (orbitType s) idx in
  match solveKepler M e with
  | None => None
  | Some E =>
      Some (pointAt (orbitType s) (keplerElementsRef s)
              (updatedElementsRad s) au E)
  end.

(** The loop over [idxs], pushing in the order of the indices. *)
Fixpoint samplePoints (au : R) (s : State) (idxs : list nat) : list Vector3 :=
  match idxs with
  | [] => []
  | idx :: rest =>
      match samplePoint au s idx with
      | None => samplePoints au s rest
      | Some pt => pt :: samplePoints au s rest
      end
  end.

(** The callback of [orbitPoints]'s [useMemo]: [idx] runs from [0] to
    [maxIdx] included.  It is given here as a function of the state it is
    run on; React runs it at the first render and again when [AU] changes,
    and the component draws the value kept from the last run. *)
Definition orbitPoints (au : R) (s : State) : list Vector3 :=
  samplePoints au s (seq 0 (S (maxIdx (orbitType s)))).

(** *** [useFrame] *)

(** The new object assigned to [keplerElementsRef.current]: every element
    advanced by its rate, the opacity carried over. *)
Definition integrate (p : Props.t) (cur : Elements.t)
    (deltaCySimulation : R) : Elements.t :=
  {| Elements.semiMajorAxis :=
       Elements.semiMajorAxis cur
       + Props.semiMajorAxisRate p * deltaCySimulation;
     Elements.eccentricity :=
       Elements.eccentricity cur
       + Props.eccentricityRate p * deltaCySimulation;
     Elements.inclination :=
       Elements.inclination cur
       + Props.inclinationRate p * deltaCySimulation;
     Elements.longitudeOfAscendingNode :=
       Elements.longitudeOfAscendingNode cur
       + Props.longitudeOfAscendingNodeRate p * deltaCySimulation;
     Elements.argumentOfPeriapsis :=
       Elements.argumentOfPeriapsis cur
       + Props.argumentOfPeriapsisRate p * deltaCySimulation;
     Elements.meanAnomalyAtEpoch :=
       Elements.meanAnomalyAtEpoch cur
       + Props.meanAnomalyAtEpochRate p * deltaCySimulation;
     Elements.opacity := Elements.opacity cur |}.

(** [M] as it is passed to the solver: [M0Rad + n * elapsedTime], and for
    the hyperbolic type [elapsedTime > 0 ? M : -M]. *)
Definition meanAnomaly (ot : OrbitType) (m0Rad nn elapsedTime : R) : R :=
  let M := m0Rad + nn * elapsedTime in
  match ot with
  | hyperbolic => if Rgt_dec elapsedTime 0 then M else - M
  | _ => M
  end.

(** [fontSize] from the distance of the camera to the origin. *)
Definition fontSizeFor (cameraDistance : R) : R :=
  let minCameraDistance := 10 in
  let maxCameraDistance := 12000 in
  let minFontSize := 1.5 in
  let maxFontSize := 500 in
  if (if Rgt_dec cameraDistance minCameraDistance then true else false)
     && (if Rlt_dec cameraDistance maxCameraDistance then true else false)
  then
    clamp
      (minFontSize +
       ((cameraDistance - minCameraDistance) /
        (maxCameraDistance - minCameraDistance)) *
       (maxFontSize - minFontSize))
      minFontSize maxFontSize
  else if Rge_dec cameraDistance maxCameraDistance then maxFontSize
  else minFontSize.

(** [newOpacity] from the distance of the camera to the body. *)
Definition opacityFor (semiMajorAxis au distance : R) : R :=
  let minDistance := semiMajorAxis * au * 4 in
  let maxDistance := semiMajorAxis * au * 10 in
  if Rgt_dec distance minDistance then
    clamp (1 - (distance - minDistance) / (maxDistance - minDistance)) 0 1
  else 1.

(** The callback of [traverse] on one descendant. *)
Definition fade (newOpacity : R) (child : Child) : Child :=
  if isMesh child then
    let o1 := lerp (materialOpacity child) newOpacity 0.1 in
    let o2 :=
      if String.eqb (childName child) "label"
      then lerp (Rmin o1 0.7) newOpacity 0.1 else o1 in
    let o3 :=
      if String.eqb (childType child) "Line2" then Rmin o2 0.4 else o2 in
    {| isMesh := isMesh child;
       childName := childName child;
       childType := childType child;
       materialOpacity := o3;
       materialTransparent := true |}
  else child.

(** [keplerElementsRef.current = ...]; the other hooks are untouched. *)
Definition setElements (s : State) (el : Elements.t) : State :=
  {| keplerElementsRef := el;
     orbitType := orbitType s;
     updatedElementsRad := updatedElementsRad s;
     groupRef := groupRef s;
     planetGroupRef := planetGroupRef s;
     planetRef := planetRef s;
     ringRef := ringRef s;
     labelRef := labelRef s;
     textFontSize := textFontSize s |}.

(** [keplerElementsRef.current.opacity = newOpacity] *)
Definition setOpacity (el : Elements.t) (newOpacity : R) : Elements.t :=
  {| Elements.semiMajorAxis := Elements.semiMajorAxis el;
     Elements.eccentricity := Elements.eccentricity el;
     Elements.inclination := Elements.inclination el;
     Elements.longitudeOfAscendingNode := Elements.longitudeOfAscendingNode el;
     Elements.argumentOfPeriapsis := Elements.argumentOfPeriapsis el;
     Elements.meanAnomalyAtEpoch := Elements.meanAnomalyAtEpoch el;
     Elements.opacity := newOpacity |}.

(** The part of the frame callback that runs once the solver has given an
    eccentric anomaly [E] and the inner group is attached: position,
    orientation, label, opacity and visibility. [s] already holds the
    integrated elements. *)
Definition render (p : Props.t) (env : Env) (delta : R) (s : State)
    (updatedRad : ElementsRad) (E : R) : State :=
  let planetPos :=
    pointAt (orbitType s) (keplerElementsRef s) updatedRad (AU env) E in
  let orbitalQuaternion :=
    setFromEuler (iRad updatedRad) (ORad updatedRad) (wRad updatedRad) in
  let rotatedRotationAxis :=
    applyQuaternion (rotationAxisVector p) orbitalQuaternion in
  let planet :=
    match planetRef s with
    | None => None
    | Some q =>
        let q1 :=
          rotateOnAxis q rotatedRotationAxis (Props.rotationSpeed p * delta) in
        Some (if thisFocusedBody env then q1
              else lookAt q1 planetPos (cameraPosition env))
    end in
  let ring :=
    match Props.rings p, ringRef s with
    | Some rings, Some q =>
        Some (rotateOnAxis q (normalize (ringRotationAxis rings))
                (ringRotationSpeed rings * delta))
    | _, r => r
    end in
  let fontSize := fontSizeFor (length3 (cameraPosition env)) in
  let direction := normalize planetPos in
  let labelOffset := (Props.semiMajorAxis p * AU env) / 20 in
  let label :=
    match labelRef s with
    | None => None
    | Some _ => Some (multiplyScalar direction labelOffset)
    end in
  let distance := distanceTo (cameraPosition env) planetPos in
  let newOpacity := opacityFor (Props.semiMajorAxis p) (AU env) distance in
  let group :=
    match groupRef s with
    | None => None
    | Some g =>
        Some {| visible := if Rgt_dec newOpacity 0.05 then true else false;
                children := map (fade newOpacity) (children g) |}
    end in
  {| keplerElementsRef := setOpacity (keplerElementsRef s) newOpacity;
     orbitType := orbitType s;
     updatedElementsRad := updatedElementsRad s;
     groupRef := group;
     planetGroupRef := Some planetPos;
     planetRef := planet;
     ringRef := ring;
     labelRef := label;
     textFontSize := fontSize |}.

(** The callback of [useFrame], for a clock reading [clock]
    ([clock.getElapsedTime ()]) and a frame time [delta]. *)
Definition useFrame (p : Props.t) (env : Env) (clock delta : R)
    (s : State) : State :=
  if Req_dec_T (AU env) 0 then s
  else
    let elapsedTime := clock * speedFactor env in
    let deltaCySimulation := (delta * speedFactor env) / 86400 in
    let s1 :=
      setElements s (integrate p (keplerElementsRef s) deltaCySimulation) in
    let updatedRad := toRad (keplerElementsRef s1) in
    let M := meanAnomaly (orbitType s1) (M0Rad updatedRad) (n p) elapsedTime in
    match solveKepler M (Elements.eccentricity (keplerElementsRef s1)) with
    | None => s1
    | Some E =>
        match planetGroupRef s1 with
        | None => s1
        | Some _ => render p env delta s1 updatedRad E
        end
    end.

(** Frames run one after the other, each with its own context, clock
    reading and frame time. *)
Fixpoint frames (p : Props.t) (ticks : list (Env * R * R)) (s : State)
    : State :=
  match ticks with
  | [] => s
  | (env, clock, delta) :: rest => frames p rest (useFrame p env clock delta s)
  end.

(** *** The pointer *)

(** [handleBodyClick]: [Some] is the call of [setFocusedBody] with the
    body's data. *)
Definition handleBodyClick (p : Props.t) (env : Env) (s : State)
    : option Props.t :=
  if String.eqb (cameraType env) "ship" then None
  else if Rgt_dec (Elements.opacity (keplerElementsRef s)) 0.05 then Some p
  else None.

(** [handlePointerMove]: [Some] is the cursor assigned. *)
Definition handlePointerMove (env : Env) (s : State) : option string :=
  if String.eqb (cameraType env) "ship" then None
  else if Rgt_dec (Elements.opacity (keplerElementsRef s)) 0.05
       then Some "pointer"%string
  else None.

End Component.

(** ** What a frame hands to the solver *)

Section Observations.

Variable solveKepler : R -> R -> option R.

(** The state right after the assignment to [keplerElementsRef.current]. *)
Definition integrated (p : Props.t) (env : Env) (delta : R) (s : State)
    : State :=
  setElements s
    (integrate p (keplerElementsRef s) ((delta * speedFactor env) / 86400)).

(** The mean anomaly [M] the frame passes to the solver. *)
Definition frameAnomaly (p : Props.t) (env : Env) (clock delta : R)
    (s : State) : R :=
  let s1 := integrated p env delta s in
  meanAnomaly (orbitType s1) (M0Rad (toRad (keplerElementsRef s1))) (n p)
    (clock * speedFactor env).

(** The value the solver returns in the frame. *)
Definition frameSolve (p : Props.t) (env : Env) (clock delta : R)
    (s : State) : option R :=
  solveKepler (frameAnomaly p env clock delta s)
    (Elements.eccentricity (keplerElementsRef (integrated p env delta s))).


(** The frame computes an opacity: [AU] is set, the solver succeeds and the
    inner group is attached. *)
Definition completes (p : Props.t) (env : Env) (clock delta : R)
    (s : State) : Prop :=
  AU env <> 0 /\
  frameSolve p env clock delta s <> None /\
  planetGroupRef s <> None.

(** The drift of the eccentricity in a frame is not negative. *)
Definition driftsUp (p : Props.t) (tick : Env * R * R) : Prop :=
  let '(env, _, delta) := tick in
  0 <= Props.eccentricityRate p * (delta * speedFactor env).

(** What a frame leaves of the scene and of the opacity when it stops at
    the solver. *)
Definition outputs (s : State)
    : option Group * option Vector3 * option Quaternion * option Quaternion
      * option Vector3 * R * R :=
  (groupRef s, planetGroupRef s, planetRef s, ringRef s, labelRef s,
   textFontSize s, Elements.opacity (keplerElementsRef s)).

(** The visibility flag of the outer group agrees with the stored
    opacity. *)
Definition inSync (s : State) : Prop :=
  forall g, groupRef s = Some g ->
    (visible g = true <-> Elements.opacity (keplerElementsRef s) > 0.05).

End Observations.

(** ** The solver, from the specification *)

Module KeplerSpec.

(** Modelled from the spec: the Newton iteration of [solveKepler]
    ([utils/kepler], absent from the sources).  From the guess [E] it stops
    with [E] as soon as the residual [|f E|] is below the tolerance, takes a
    Newton step otherwise, and fails ([None]) once the iteration cap is
    used up. *)
Fixpoint newton (tolerance : R) (f f' : R -> R) (fuel : nat) (E : R)
    {struct fuel} : option R :=
  if Rlt_dec (Rabs (f E)) tolerance then Some E
  else
    match fuel with
    | O => None
    | S k => newton tolerance f f' k (E - f E / f' E)
    end.

(** [sign (M)] *)
Definition sign (x : R) : R :=
  if Rgt_dec x 0 then 1 else if Rlt_dec x 0 then -1 else 0.

(** Modelled from the spec: [solveKepler (M, e)].  For [e > 1] it solves
    [M = e sinh E - E] from the guess [sign M * ln (2 |M| / e + 1.8)];
    otherwise it solves [M = E - e sin E] from the guess [E = M].  The
    tolerance and the iteration cap are the configuration of the solver. *)
Definition solveKepler (tolerance : R) (maxIterations : nat) (M e : R)
    : option R :=
  if Rgt_dec e 1 then
    newton tolerance (fun E => e * sinh E - E - M) (fun E => e * cosh E - 1)
      maxIterations (sign M * ln (2 * Rabs M / e + 1.8))
  else
    newton tolerance (fun E => E - e * sin E - M) (fun E => 1 - e * cos E)
      maxIterations M.

End KeplerSpec.


(** ** What the component renders *)

(** The part of [useSpace] that decides what is drawn. *)
Record Space : Type := mkSpace {
  focusedBody : option Props.t;
  showDwarf : bool;
  showPlanetLabels : bool;
  showPlanetOrbits : bool;
  showDwarfLabels : bool;
  showDwarfOrbits : bool
}.

(** [showLabels] *)
Definition showLabels (sp : Space) (p : Props.t) : bool :=
  if String.eqb (Props.type p) "planet" then showPlanetLabels sp
  else showDwarfLabels sp.

(** [showOrbits] *)
Definition showOrbits (sp : Space) (p : Props.t) : bool :=
  if String.eqb (Props.type p) "planet" then showPlanetOrbits sp
  else showDwarfOrbits sp.

(** [thisFocusedBody], that is [focusedBody?.data.name === name]. *)
Definition thisFocusedBodyOf (sp : Space) (p : Props.t) : bool :=
  match focusedBody sp with
  | Some data => String.eqb (Props.name data) (Props.name p)
  | None => false
  end.

(** The geometries the component builds. *)
Inductive Geometry : Type :=
  | RingGeometry (inner outer : R) (thetaSegments : nat)
  | SphereGeometry (sphereRadius : R) (widthSegments heightSegments : nat).

(** The geometry of [mediumDetailMesh], a thin ring standing for the body
    seen from afar. *)
Definition mediumDetailMesh (p : Props.t) (au : R) : Geometry :=
  let initial := (Props.semiMajorAxis p * au) / 20 in
  let final := (Props.semiMajorAxis p * au * 1.02) / 20 in
  RingGeometry initial final 32.

(** The geometry of [highDetailMesh]. *)
Definition highDetailMesh (p : Props.t) : Geometry :=
  SphereGeometry (Props.radius p) 32 32.

(** [bodyMesh] *)
Definition bodyMesh (sp : Space) (p : Props.t) (au : R) : Geometry :=
  if thisFocusedBodyOf sp p then highDetailMesh p else mediumDetailMesh p au.

(** The geometry of [ringMesh]; [context] tells whether the canvas gave a
    2D context. *)
Definition ringMesh (p : Props.t) (context : bool) : option Geometry :=
  match Props.rings p with
  | None => None
  | Some rings =>
      if context
      then Some (RingGeometry (innerRadius rings) (outerRadius rings) 64)
      else None
  end.

(** What the component returns: [None] for [null], otherwise whether the
    orbit line is visible, the body, the rings when they are rendered and
    whether the label is rendered. *)
Record View : Type := mkView {
  lineVisible : bool;
  viewBody : Geometry;
  viewRing : option Geometry;
  viewLabel : bool
}.

Definition view (sp : Space) (p : Props.t) (au : R) (context : bool)
    : option View :=
  if String.eqb (Props.type p) "dwarf" && negb (showDwarf sp) then None
  else
    Some
      {| lineVisible := negb (thisFocusedBodyOf sp p) && showOrbits sp p;
         viewBody := bodyMesh sp p au;
         viewRing :=
           match Props.rings p, ringMesh p context with
           | Some _, Some mesh =>
               if thisFocusedBodyOf sp p then Some mesh else None
           | _, _ => None
           end;
         viewLabel := showLabels sp p && negb (thisFocusedBodyOf sp p) |}.

(** [handlePointerOut]: [Some] is the cursor assigned. *)
Definition handlePointerOut (env : Env) : option string :=
  if String.eqb (cameraType env) "ship" then None else Some "auto"%string.


(** ** Sample bodies and hosts

    Concrete inputs on which the statements below are instantiated. *)

(** A body of semi-major axis 1 in the reference plane, with the given
    eccentricity, drifts of the eccentricity and of the semi-major axis,
    mean anomaly at epoch and period. *)
Definition sampleBody (e eRate aRate m0 period : R) : Props.t :=
  {| Props.name := "body";
     Props.type := "planet";
     Props.radius := 1;
     Props.rotationSpeed := 0;
     Props.rotationAxis := mkVector3 0 1 0;
     Props.semiMajorAxis := 1;
     Props.semiMajorAxisRate := aRate;
     Props.eccentricity := e;
     Props.eccentricityRate := eRate;
     Props.inclination := 0;
     Props.inclinationRate := 0;
     Props.longitudeOfAscendingNode := 0;
     Props.longitudeOfAscendingNodeRate := 0;
     Props.argumentOfPeriapsis := 0;
     Props.argumentOfPeriapsisRate := 0;
     Props.meanAnomalyAtEpoch := m0;
     Props.meanAnomalyAtEpochRate := 0;
     Props.orbitalPeriod := period;
     Props.rings := None |}.

(** A context with the given speed factor, [AU = 1] and the camera at the
    given place. *)
Definition sampleEnv (speed : R) (camera : Vector3) : Env :=
  {| speedFactor := speed;
     AU := 1;
     cameraType := "orbit";
     cameraPosition := camera;
     thisFocusedBody := false |}.

(** The component mounted with both groups and the body attached. *)
Definition mounted (p : Props.t) : State :=
  mount p (Some (mkGroup true [])) (Some (mkVector3 0 0 0))
    (Some (mkQuaternion 0 0 0 1)) None None.

(** A solver that always fails, and one that returns its mean anomaly
    (exact when the eccentricity is [0]). *)
Definition failingSolver (M e : R) : option R := None.
Definition circularSolver (M e : R) : option R := Some M.

(** A host whose orientation operations do nothing. *)
Definition idEuler (x y z : R) : Quaternion := mkQuaternion 0 0 0 1.
Definition idApply (v : Vector3) (q : Quaternion) : Vector3 := v.
Definition idRotate (q : Quaternion) (axis : Vector3) (angle : R)
    : Quaternion := q.
Definition idLookAt (q : Quaternion) (position target : Vector3)
    : Quaternion := q.

(** ** Properties of the component *)

(** Case analysis on the comparisons of real numbers met in the goal. *)
Ltac rcases :=
  repeat match goal with
  | |- context [Rlt_dec ?a ?b] => destruct (Rlt_dec a b)
  | |- context [Rgt_dec ?a ?b] => destruct (Rgt_dec a b)
  | |- context [Rge_dec ?a ?b] => destruct (Rge_dec a b)
  | |- context [Rle_dec ?a ?b] => destruct (Rle_dec a b)
  | |- context [Req_dec_T ?a ?b] => destruct (Req_dec_T a b)
  end.

Lemma integrate_zero (p : Props.t) (el : Elements.t) : integrate p el 0 = el.
Proof.
  destruct el; unfold integrate; cbn [Elements.semiMajorAxis
    Elements.eccentricity Elements.inclination
    Elements.longitudeOfAscendingNode Elements.argumentOfPeriapsis
    Elements.meanAnomalyAtEpoch Elements.opacity].
  f_equal; ring.
Qed.

Lemma setElements_same (s : State) : setElements s (keplerElementsRef s) = s.
Proof. destruct s; reflexivity. Qed.

Section Properties.

Variable solveKepler : R -> R -> option R.
Variable setFromEuler : R -> R -> R -> Quaternion.
Variable applyQuaternion : Vector3 -> Quaternion -> Vector3.
Variable rotateOnAxis : Quaternion -> Vector3 -> R -> Quaternion.
Variable lookAt : Quaternion -> Vector3 -> Vector3 -> Quaternion.

Local Abbreviation frame :=
  (useFrame solveKepler setFromEuler applyQuaternion rotateOnAxis lookAt).
Local Abbreviation run :=
  (frames solveKepler setFromEuler applyQuaternion rotateOnAxis lookAt).
Local Abbreviation draw :=
  (render setFromEuler applyQuaternion rotateOnAxis lookAt).

(** A frame does one of three things: nothing when [AU] is not set; only
    the integration of the elements when the solver fails or the inner
    group is not attached; the integration followed by [render]. *)
Lemma frame_cases (p : Props.t) (env : Env) (clock delta : R) (s : State) :
  let s1 := integrated p env delta s in
  (AU env = 0 /\ frame p env clock delta s = s) \/
  (AU env <> 0 /\
   (frameSolve solveKepler p env clock delta s = None \/
    planetGroupRef s = None) /\
   frame p env clock delta s = s1) \/
  (AU env <> 0 /\
   exists E pos,
     frameSolve solveKepler p env clock delta s = Some E /\
     planetGroupRef s = Some pos /\
     frame p env clock delta s =
       draw p env delta s1 (toRad (keplerElementsRef s1)) E).
Proof.
  intros s1. unfold useFrame.
  destruct (Req_dec_T (AU env) 0) as [Hau | Hau]; [left; auto | right].
  fold (integrated p env delta s). fold s1.
  change (solveKepler _ _) with (frameSolve solveKepler p env clock delta s).
  destruct (frameSolve solveKepler p env clock delta s) as [E |] eqn:HE.
  - change (planetGroupRef s1) with (planetGroupRef s).
    destruct (planetGroupRef s) as [pos |] eqn:Hpg.
    + right. split; [assumption |]. exists E, pos. auto.
    + left. auto.
  - left. auto.
Qed.

(** The memoised orbit type is never assigned by a frame. *)
Lemma frame_orbitType (p : Props.t) (env : Env) (clock delta : R) (s : State) :
  orbitType (frame p env clock delta s) = orbitType s.
Proof.
  destruct (frame_cases p env clock delta s) as
    [[_ ->] | [(_ & _ & ->) | (_ & E & pos & _ & _ & ->)]]; reflexivity.
Qed.

Lemma run_orbitType (p : Props.t) (ticks : list (Env * R * R)) (s : State) :
  orbitType (run p ticks s) = orbitType s.
Proof.
  revert s. induction ticks as [| [[env clock] delta] rest IH]; intros s.
  - reflexivity.
  - simpl. rewrite IH. apply frame_orbitType.
Qed.

End Properties.

(** ** The orbit type is the one of the first render *)

Section Regime.

Variable solveKepler : R -> R -> option R.
Variable setFromEuler : R -> R -> R -> Quaternion.
Variable applyQuaternion : Vector3 -> Quaternion -> Vector3.
Variable rotateOnAxis : Quaternion -> Vector3 -> R -> Quaternion.
Variable lookAt : Quaternion -> Vector3 -> Vector3 -> Quaternion.

(** C1, as the code has it: the orbit type that the frames and the sampler
    of the orbit path read is the classification of the eccentricity the
    component was created with.  It is computed at the first render and no
    sequence of frames, whatever the rates, changes it; the frames and the
    sampler branch on this value. *)
Theorem orbitType_fixed_at_mount (p : Props.t) (g : option Group)
    (pg : option Vector3) (pl rg : option Quaternion) (lb : option Vector3)
    (ticks : list (Env * R * R)) :
  let s :=
    frames solveKepler setFromEuler applyQuaternion rotateOnAxis lookAt
      p ticks (mount p g pg pl rg lb) in
  orbitType s = classify (Props.eccentricity p) /\
  (forall env clock delta,
     frameAnomaly p env clock delta s =
     meanAnomaly (classify (Props.eccentricity p))
       (M0Rad (toRad (keplerElementsRef (integrated p env delta s))))
       (n p) (clock * speedFactor env)) /\
  (forall au,
     orbitPoints solveKepler au s =
     samplePoints solveKepler au s
       (seq 0 (S (maxIdx (classify (Props.eccentricity p)))))).
Proof.
  intros s.
  assert (H : orbitType s = classify (Props.eccentricity p)).
  { unfold s. rewrite run_orbitType. reflexivity. }
  split; [exact H |]. split.
  - intros env clock delta. unfold frameAnomaly.
    change (orbitType (integrated p env delta s)) with (orbitType s).
    rewrite H. reflexivity.
  - intros au. unfold orbitPoints. rewrite H. reflexivity.
Qed.

End Regime.

(** C1, refuted as stated: a body created with eccentricity [0.5] whose
    eccentricity drifts by [86400] per day is, after one frame of one
    second, at eccentricity [1.5], which classifies as hyperbolic, while the
    orbit type the frame used and keeps is still elliptical. *)
Lemma orbitType_stale_after_drift :
  let p := sampleBody 0.5 86400 0 0 1 in
  let s0 := mounted p in
  let s1 :=
    useFrame circularSolver idEuler idApply idRotate idLookAt p
      (sampleEnv 1 (mkVector3 0 0 0)) 1 1 s0 in
  Elements.eccentricity (keplerElementsRef s0) = 0.5 /\
  Elements.eccentricity (keplerElementsRef s1) = 1.5 /\
  orbitType s1 = elliptical /\
  classify (Elements.eccentricity (keplerElementsRef s1)) = hyperbolic /\
  orbitType s1 <> classify (Elements.eccentricity (keplerElementsRef s1)).
Proof.
  cbv zeta.
  assert (He : Elements.eccentricity (keplerElementsRef
            (useFrame circularSolver idEuler idApply idRotate idLookAt
               (sampleBody 0.5 86400 0 0 1) (sampleEnv 1 (mkVector3 0 0 0))
               1 1 (mounted (sampleBody 0.5 86400 0 0 1)))) = 1.5).
  { unfold useFrame. cbn [AU sampleEnv].
    destruct (Req_dec_T 1 0) as [H | _]; [lra |].
    cbn. lra. }
  assert (Ho : orbitType
            (useFrame circularSolver idEuler idApply idRotate idLookAt
               (sampleBody 0.5 86400 0 0 1) (sampleEnv 1 (mkVector3 0 0 0))
               1 1 (mounted (sampleBody 0.5 86400 0 0 1))) = elliptical).
  { rewrite frame_orbitType. cbn. unfold classify.
    destruct (Rlt_dec 0.5 1); [reflexivity | lra]. }
  assert (Hc : classify 1.5 = hyperbolic).
  { unfold classify. rcases; try lra; reflexivity. }
  repeat split.
  - exact He.
  - exact Ho.
  - rewrite He. exact Hc.
  - rewrite He, Ho, Hc. discriminate.
Qed.

(** ** Integration of the rates *)

Section Integration.

Variable solveKepler : R -> R -> option R.
Variable setFromEuler : R -> R -> R -> Quaternion.
Variable applyQuaternion : Vector3 -> Quaternion -> Vector3.
Variable rotateOnAxis : Quaternion -> Vector3 -> R -> Quaternion.
Variable lookAt : Quaternion -> Vector3 -> Vector3 -> Quaternion.

Local Abbreviation frame :=
  (useFrame solveKepler setFromEuler applyQuaternion rotateOnAxis lookAt).
Local Abbreviation run :=
  (frames solveKepler setFromEuler applyQuaternion rotateOnAxis lookAt).
Local Abbreviation draw :=
  (render setFromEuler applyQuaternion rotateOnAxis lookAt).

(** [render] writes the opacity only: the six elements are those it was
    given. *)
Lemma render_six (p : Props.t) (env : Env) (delta : R) (s : State)
    (rad : ElementsRad) (E : R) :
  Elements.six (keplerElementsRef (draw p env delta s rad E)) =
  Elements.six (keplerElementsRef s).
Proof. reflexivity. Qed.

(** The six elements after a frame: untouched when [AU] is not set, advanced
    by their rates otherwise, whether or not the solver succeeds. *)
Lemma frame_six (p : Props.t) (env : Env) (clock delta : R) (s : State) :
  Elements.six (keplerElementsRef (frame p env clock delta s)) =
  if Req_dec_T (AU env) 0 then Elements.six (keplerElementsRef s)
  else Elements.six (keplerElementsRef (integrated p env delta s)).
Proof.
  destruct (frame_cases solveKepler setFromEuler applyQuaternion rotateOnAxis
              lookAt p env clock delta s) as
    [[Hau ->] | [(Hau & _ & ->) | (Hau & E & pos & _ & _ & ->)]];
    destruct (Req_dec_T (AU env) 0); try contradiction; reflexivity.
Qed.

Lemma frame_eccentricity (p : Props.t) (env : Env) (clock delta : R)
    (s : State) :
  Elements.eccentricity (keplerElementsRef (frame p env clock delta s)) =
  if Req_dec_T (AU env) 0 then Elements.eccentricity (keplerElementsRef s)
  else Elements.eccentricity (keplerElementsRef s)
       + Props.eccentricityRate p * ((delta * speedFactor env) / 86400).
Proof.
  pose proof (frame_six p env clock delta s) as H.
  destruct (Req_dec_T (AU env) 0); unfold Elements.six in H;
    injection H as _ He _ _ _ _; exact He.
Qed.

(** C8, as the code has it: a frame stores the previous eccentricity plus
    [eccentricityRate * delta * speedFactor / 86400], without any clamp
    (and leaves it as it is when [AU] is not set); from a non-negative
    eccentricity, every sequence of frames whose drift is never negative
    ends at a non-negative eccentricity. *)
Theorem eccentricity_nonneg_when_drift_up (p : Props.t)
    (ticks : list (Env * R * R)) (s : State) :
  0 <= Elements.eccentricity (keplerElementsRef s) ->
  Forall (driftsUp p) ticks ->
  0 <= Elements.eccentricity (keplerElementsRef (run p ticks s)) /\
  (forall env clock delta,
     AU env <> 0 ->
     Elements.eccentricity (keplerElementsRef (frame p env clock delta s)) =
     Elements.eccentricity (keplerElementsRef s)
     + Props.eccentricityRate p * ((delta * speedFactor env) / 86400)).
Proof.
  intros H0 Hticks. split.
  - revert s H0.
    induction Hticks as [| [[env clock] delta] rest Hup _ IH]; intros s H0.
    + exact H0.
    + simpl. apply IH. rewrite frame_eccentricity.
      destruct (Req_dec_T (AU env) 0); [exact H0 |].
      unfold driftsUp in Hup. lra.
  - intros env clock delta Hau. rewrite frame_eccentricity.
    destruct (Req_dec_T (AU env) 0); [contradiction | reflexivity].
Qed.

(** C2, as the code has it: in a frame in which the solver fails, nothing
    is written to the scene (position, orientations, label, font size,
    visibility and material opacities are the previous ones) and the stored
    opacity is the previous one; the six elements have nevertheless been
    advanced by their rates for that frame, before the solver was called. *)
Theorem solver_failure_keeps_outputs_not_elements (p : Props.t) (env : Env)
    (clock delta : R) (s : State) :
  AU env <> 0 ->
  frameSolve solveKepler p env clock delta s = None ->
  let s' := frame p env clock delta s in
  outputs s' = outputs s /\
  orbitType s' = orbitType s /\
  keplerElementsRef s' =
    integrate p (keplerElementsRef s) ((delta * speedFactor env) / 86400).
Proof.
  intros Hau Hfail s'.
  assert (Hs : s' = integrated p env delta s).
  { unfold s'.
    destruct (frame_cases solveKepler setFromEuler applyQuaternion
                rotateOnAxis lookAt p env clock delta s) as
      [[Hau' _] | [(_ & _ & ->) | (_ & E & pos & HE & _)]].
    - contradiction.
    - reflexivity.
    - rewrite Hfail in HE. discriminate. }
  rewrite Hs. repeat split.
Qed.

End Integration.

(** C8, refuted as stated: from eccentricity [0.1], a rate of [-86400] per
    day and one frame of one second store the eccentricity [-0.9]. *)
Lemma eccentricity_negative_after_drift :
  let p := sampleBody 0.1 (-86400) 0 0 1 in
  let s1 :=
    useFrame circularSolver idEuler idApply idRotate idLookAt p
      (sampleEnv 1 (mkVector3 0 0 0)) 1 1 (mounted p) in
  Elements.eccentricity (keplerElementsRef (mounted p)) = 0.1 /\
  Elements.eccentricity (keplerElementsRef s1) = -0.9 /\
  Elements.eccentricity (keplerElementsRef s1) < 0.
Proof.
  cbv zeta. rewrite frame_eccentricity. cbn [AU sampleEnv].
  destruct (Req_dec_T 1 0) as [H | _]; [lra |].
  cbn. lra.
Qed.

(** C2, refuted as stated: the solver fails in the frame, and the
    semi-major axis, which drifts by [86400] per day, has moved from [1] to
    [2] all the same. *)
Lemma elements_drift_when_solver_fails :
  let p := sampleBody 0.5 0 86400 0 1 in
  let env := sampleEnv 1 (mkVector3 0 0 0) in
  let s1 :=
    useFrame failingSolver idEuler idApply idRotate idLookAt p env 1 1
      (mounted p) in
  frameSolve failingSolver p env 1 1 (mounted p) = None /\
  Elements.semiMajorAxis (keplerElementsRef (mounted p)) = 1 /\
  Elements.semiMajorAxis (keplerElementsRef s1) = 2 /\
  Elements.six (keplerElementsRef s1)
    <> Elements.six (keplerElementsRef (mounted p)).
Proof.
  cbv zeta.
  assert (Ha : Elements.semiMajorAxis (keplerElementsRef
            (useFrame failingSolver idEuler idApply idRotate idLookAt
               (sampleBody 0.5 0 86400 0 1) (sampleEnv 1 (mkVector3 0 0 0))
               1 1 (mounted (sampleBody 0.5 0 86400 0 1)))) = 2).
  { unfold useFrame. cbn [AU sampleEnv].
    destruct (Req_dec_T 1 0) as [H | _]; [lra |].
    cbn. lra. }
  repeat split.
  - exact Ha.
  - intros H. unfold Elements.six in H. injection H as H _ _ _ _ _.
    rewrite Ha in H. cbn in H. lra.
Qed.

(** ** Opacity, visibility and selection *)

Lemma clamp_bounds (v : R) : 0 <= clamp v 0 1 <= 1.
Proof.
  unfold clamp, Rmax, Rmin.
  destruct (Rle_dec 1 v); destruct (Rle_dec 0 1); destruct (Rle_dec 0 v);
    lra.
Qed.

Lemma clamp_mono (v w : R) : v <= w -> clamp v 0 1 <= clamp w 0 1.
Proof.
  intros H. unfold clamp.
  apply Rle_max_compat_l, Rle_min_compat_l, H.
Qed.

Lemma clamp_nonpos (v : R) : v <= 0 -> clamp v 0 1 = 0.
Proof.
  intros H. unfold clamp, Rmax, Rmin.
  destruct (Rle_dec 1 v); [lra |].
  destruct (Rle_dec 0 v); lra.
Qed.

(** The linear part of the fade, for a positive product [k] of the
    semi-major axis and [AU]. *)
Lemma fade_line (k d : R) :
  0 < k ->
  1 - (d - k * 4) / (k * 10 - k * 4) = (10 * k - d) / (6 * k).
Proof. intros Hk. field. lra. Qed.

Lemma opacityFor_bounds (a au d : R) : 0 <= opacityFor a au d <= 1.
Proof.
  unfold opacityFor. destruct (Rgt_dec d (a * au * 4)).
  - apply clamp_bounds.
  - lra.
Qed.

Lemma opacityFor_mono (a au d d' : R) :
  0 < a -> 0 < au -> d <= d' -> opacityFor a au d' <= opacityFor a au d.
Proof.
  intros Ha Hau Hd.
  assert (Hk : 0 < a * au) by (apply Rmult_lt_0_compat; assumption).
  unfold opacityFor.
  destruct (Rgt_dec d' (a * au * 4)) as [H' | H'];
    destruct (Rgt_dec d (a * au * 4)) as [H | H].
  - apply clamp_mono. rewrite !fade_line by assumption.
    unfold Rdiv. apply Rmult_le_compat_r.
    + apply Rlt_le, Rinv_0_lt_compat. lra.
    + lra.
  - apply clamp_bounds.
  - lra.
  - lra.
Qed.

(** C3: for a positive semi-major axis (and a positive scale [AU]), the
    opacity computed from the distance between the observer and the body
    is exactly [1] up to [minDistance = semiMajorAxis * AU * 4], exactly [0]
    from [maxDistance = semiMajorAxis * AU * 10] on, lies in [[0, 1]], and
    does not increase when the distance grows. *)
Theorem opacity_attenuation (semiMajorAxis au : R) (body observer : Vector3) :
  0 < semiMajorAxis -> 0 < au ->
  let minDistance := semiMajorAxis * au * 4 in
  let maxDistance := semiMajorAxis * au * 10 in
  let distance := distanceTo observer body in
  (distance <= minDistance -> opacityFor semiMajorAxis au distance = 1) /\
  (distance >= maxDistance -> opacityFor semiMajorAxis au distance = 0) /\
  0 <= opacityFor semiMajorAxis au distance <= 1 /\
  (forall body' observer' : Vector3,
     distance <= distanceTo observer' body' ->
     opacityFor semiMajorAxis au (distanceTo observer' body')
     <= opacityFor semiMajorAxis au distance).
Proof.
  intros Ha Hau minDistance maxDistance distance.
  assert (Hk : 0 < semiMajorAxis * au)
    by (apply Rmult_lt_0_compat; assumption).
  repeat split.
  - intros Hd. unfold opacityFor. fold minDistance.
    destruct (Rgt_dec distance minDistance); [lra | reflexivity].
  - intros Hd. unfold opacityFor. fold minDistance maxDistance.
    destruct (Rgt_dec distance minDistance) as [_ | Hn].
    + apply clamp_nonpos. unfold minDistance, maxDistance in *.
      rewrite fade_line by assumption.
      unfold Rdiv.
      assert (Hi : 0 < / (6 * (semiMajorAxis * au)))
        by (apply Rinv_0_lt_compat; lra).
      assert (Hn : 10 * (semiMajorAxis * au) - distance <= 0) by lra.
      nra.
    + unfold minDistance, maxDistance in *. lra.
  - apply opacityFor_bounds.
  - apply opacityFor_bounds.
  - intros body' observer' Hd. apply opacityFor_mono; assumption.
Qed.

Section Visibility.

Variable solveKepler : R -> R -> option R.
Variable setFromEuler : R -> R -> R -> Quaternion.
Variable applyQuaternion : Vector3 -> Quaternion -> Vector3.
Variable rotateOnAxis : Quaternion -> Vector3 -> R -> Quaternion.
Variable lookAt : Quaternion -> Vector3 -> Vector3 -> Quaternion.

Local Abbreviation frame :=
  (useFrame solveKepler setFromEuler applyQuaternion rotateOnAxis lookAt).
Local Abbreviation run :=
  (frames solveKepler setFromEuler applyQuaternion rotateOnAxis lookAt).
Local Abbreviation draw :=
  (render setFromEuler applyQuaternion rotateOnAxis lookAt).

(** The opacity a completed frame stores is [opacityFor] of the distance
    between the camera and the position it has just given to the body. *)
Lemma render_opacity (p : Props.t) (env : Env) (delta : R) (s : State)
    (rad : ElementsRad) (E : R) :
  let s' := draw p env delta s rad E in
  exists pos,
    planetGroupRef s' = Some pos /\
    Elements.opacity (keplerElementsRef s') =
    opacityFor (Props.semiMajorAxis p) (AU env)
      (distanceTo (cameraPosition env) pos).
Proof. intros s'. eexists. split; reflexivity. Qed.

Lemma render_inSync (p : Props.t) (env : Env) (delta : R) (s : State)
    (rad : ElementsRad) (E : R) :
  inSync (draw p env delta s rad E).
Proof.
  intros g. unfold render. cbn [groupRef keplerElementsRef].
  destruct (groupRef s) as [g0 |]; [| discriminate].
  intros [= <-]. cbn [visible setOpacity Elements.opacity].
  destruct (Rgt_dec _ 0.05) as [H | H]; split; intros H'.
  - exact H.
  - reflexivity.
  - discriminate.
  - contradiction.
Qed.

Lemma frame_inSync (p : Props.t) (env : Env) (clock delta : R) (s : State) :
  inSync s -> inSync (frame p env clock delta s).
Proof.
  intros Hs.
  destruct (frame_cases solveKepler setFromEuler applyQuaternion rotateOnAxis
              lookAt p env clock delta s) as
    [[_ ->] | [(_ & _ & ->) | (_ & E & pos & _ & _ & ->)]].
  - exact Hs.
  - exact Hs.
  - apply render_inSync.
Qed.

Lemma run_inSync (p : Props.t) (ticks : list (Env * R * R)) (s : State) :
  inSync s -> inSync (run p ticks s).
Proof.
  revert s. induction ticks as [| [[env clock] delta] rest IH]; intros s Hs.
  - exact Hs.
  - simpl. apply IH, frame_inSync, Hs.
Qed.

Lemma click_needs_opacity (p : Props.t) (env : Env) (s : State) :
  handleBodyClick p env s <> None ->
  Elements.opacity (keplerElementsRef s) > 0.05.
Proof.
  unfold handleBodyClick.
  destruct (String.eqb (cameraType env) "ship"); [congruence |].
  destruct (Rgt_dec _ 0.05) as [H | H]; [intros _; exact H | congruence].
Qed.

(** C10: once a frame has computed an opacity, then after any further
    frames the outer group is marked visible only when the stored opacity,
    the one computed last, exceeds [0.05], and a click focuses the body
    only then; at an opacity of [0.05] or less the group is hidden and a
    click does nothing. *)
Theorem visible_and_selectable_only_above_threshold (p : Props.t) (env : Env)
    (clock delta : R) (s : State) (ticks : list (Env * R * R)) :
  completes solveKepler p env clock delta s ->
  let s' := run p ticks (frame p env clock delta s) in
  let opacity := Elements.opacity (keplerElementsRef s') in
  (forall g, groupRef s' = Some g -> visible g = true -> opacity > 0.05) /\
  (forall env', handleBodyClick p env' s' <> None -> opacity > 0.05) /\
  (opacity <= 0.05 ->
   (forall g, groupRef s' = Some g -> visible g = false) /\
   (forall env', handleBodyClick p env' s' = None)) /\
  (forall g, groupRef s' = Some g -> opacity > 0.05 -> visible g = true).
Proof.
  intros (Hau & Hsolve & Hpg) s' opacity.
  assert (Hsync : inSync s').
  { apply run_inSync.
    destruct (frame_cases solveKepler setFromEuler applyQuaternion
                rotateOnAxis lookAt p env clock delta s) as
      [[Hau' _] | [(_ & [Hn | Hn] & _) | (_ & E & pos & _ & _ & ->)]].
    - contradiction.
    - contradiction.
    - contradiction.
    - apply render_inSync. }
  repeat split.
  - intros g Hg Hv. apply (Hsync g Hg), Hv.
  - intros env'. apply click_needs_opacity.
  - intros g Hg. destruct (visible g) eqn:Hv; [| reflexivity].
    apply (Hsync g Hg) in Hv. fold opacity in Hv. lra.
  - intros env'.
    destruct (handleBodyClick p env' s') eqn:Hc; [| reflexivity].
    assert (Hgt : opacity > 0.05)
      by (apply (click_needs_opacity p env'); congruence).
    lra.
  - intros g Hg Ho. apply (Hsync g Hg), Ho.
Qed.

End Visibility.

(** ** Elapsed time, pause and the hyperbolic mirror *)

Lemma pointAt_setOpacity (ot : OrbitType) (el : Elements.t) (o : R)
    (rad : ElementsRad) (au E : R) :
  pointAt ot (setOpacity el o) rad au E = pointAt ot el rad au E.
Proof. reflexivity. Qed.

Lemma pointAt_ext (ot : OrbitType) (el el' : Elements.t)
    (rad : ElementsRad) (au E : R) :
  Elements.semiMajorAxis el = Elements.semiMajorAxis el' ->
  Elements.eccentricity el = Elements.eccentricity el' ->
  pointAt ot el rad au E = pointAt ot el' rad au E.
Proof. intros Ha He. unfold pointAt. rewrite Ha, He. reflexivity. Qed.

Lemma toRad_setOpacity (el : Elements.t) (o : R) :
  toRad (setOpacity el o) = toRad el.
Proof. reflexivity. Qed.

Section Time.

Variable solveKepler : R -> R -> option R.
Variable setFromEuler : R -> R -> R -> Quaternion.
Variable applyQuaternion : Vector3 -> Quaternion -> Vector3.
Variable rotateOnAxis : Quaternion -> Vector3 -> R -> Quaternion.
Variable lookAt : Quaternion -> Vector3 -> Vector3 -> Quaternion.

Local Abbreviation frame :=
  (useFrame solveKepler setFromEuler applyQuaternion rotateOnAxis lookAt).
Local Abbreviation draw :=
  (render setFromEuler applyQuaternion rotateOnAxis lookAt).

(** The position a frame leaves: the previous one unless the frame
    completes, and then the point of the orbit for the eccentric anomaly
    the solver returned. *)
Lemma frame_position (p : Props.t) (env : Env) (clock delta : R) (s : State) :
  let s1 := integrated p env delta s in
  planetGroupRef (frame p env clock delta s) =
  if Req_dec_T (AU env) 0 then planetGroupRef s
  else
    match frameSolve solveKepler p env clock delta s, planetGroupRef s with
    | Some E, Some _ =>
        Some (pointAt (orbitType s) (keplerElementsRef s1)
                (toRad (keplerElementsRef s1)) (AU env) E)
    | _, _ => planetGroupRef s
    end.
Proof.
  intros s1.
  destruct (frame_cases solveKepler setFromEuler applyQuaternion rotateOnAxis
              lookAt p env clock delta s) as
    [[Hau ->] | [(Hau & Hn & ->) | (Hau & E & pos & HE & Hpg & ->)]];
    destruct (Req_dec_T (AU env) 0); try contradiction; try reflexivity.
  - destruct Hn as [-> | Hn]; [reflexivity |].
    destruct (frameSolve _ _ _ _ _ _); rewrite Hn; exact Hn.
  - rewrite HE, Hpg. reflexivity.
Qed.

(** The object in [keplerElementsRef] after a frame: the integrated
    elements, with the new opacity when the frame completes. *)
Lemma frame_elements (p : Props.t) (env : Env) (clock delta : R) (s : State) :
  let s1 := integrated p env delta s in
  keplerElementsRef (frame p env clock delta s) =
  if Req_dec_T (AU env) 0 then keplerElementsRef s
  else
    match frameSolve solveKepler p env clock delta s, planetGroupRef s with
    | Some E, Some _ =>
        setOpacity (keplerElementsRef s1)
          (opacityFor (Props.semiMajorAxis p) (AU env)
             (distanceTo (cameraPosition env)
                (pointAt (orbitType s) (keplerElementsRef s1)
                   (toRad (keplerElementsRef s1)) (AU env) E)))
    | _, _ => keplerElementsRef s1
    end.
Proof.
  intros s1.
  destruct (frame_cases solveKepler setFromEuler applyQuaternion rotateOnAxis
              lookAt p env clock delta s) as
    [[Hau ->] | [(Hau & Hn & ->) | (Hau & E & pos & HE & Hpg & ->)]];
    destruct (Req_dec_T (AU env) 0); try contradiction; try reflexivity.
  - destruct Hn as [-> | Hn]; [reflexivity |].
    destruct (frameSolve _ _ _ _ _ _); try rewrite Hn; reflexivity.
  - rewrite HE, Hpg. reflexivity.
Qed.




Lemma paused_integrated (p : Props.t) (env : Env) (delta : R) (s : State) :
  speedFactor env = 0 -> integrated p env delta s = s.
Proof.
  intros H. unfold integrated. rewrite H.
  replace (delta * 0 / 86400) with 0 by field.
  rewrite integrate_zero. apply setElements_same.
Qed.

(** What the frame passes to the solver reads, of the state, the orbit
    type and the mean anomaly at epoch only. *)
Lemma frameAnomaly_reads (p : Props.t) (env : Env) (clock delta : R)
    (s t : State) :
  orbitType t = orbitType s ->
  Elements.meanAnomalyAtEpoch (keplerElementsRef t)
  = Elements.meanAnomalyAtEpoch (keplerElementsRef s) ->
  frameAnomaly p env clock delta t = frameAnomaly p env clock delta s.
Proof.
  intros Hot HM. unfold frameAnomaly, integrated, toRad, integrate.
  cbn [setElements keplerElementsRef orbitType M0Rad
       Elements.meanAnomalyAtEpoch].
  rewrite Hot, HM. reflexivity.
Qed.

(** A mean anomaly at epoch that has no rate is left as it is by the
    frames. *)
Lemma epoch_anomaly_kept (p : Props.t) (ticks : list (Env * R * R))
    (s : State) :
  Props.meanAnomalyAtEpochRate p = 0 ->
  Elements.meanAnomalyAtEpoch
    (keplerElementsRef
       (frames solveKepler setFromEuler applyQuaternion rotateOnAxis lookAt
          p ticks s))
  = Elements.meanAnomalyAtEpoch (keplerElementsRef s).
Proof.
  intros Hrate. revert s.
  induction ticks as [| [[env clock] delta] rest IH]; intros s.
  - reflexivity.
  - cbn [frames]. rewrite IH.
    pose proof (frame_six solveKepler setFromEuler applyQuaternion
                  rotateOnAxis lookAt p env clock delta s) as H6.
    destruct (Req_dec_T (AU env) 0); unfold Elements.six in H6;
      injection H6 as _ _ _ _ _ HM; rewrite HM; [reflexivity |].
    unfold integrated, integrate.
    cbn [setElements keplerElementsRef Elements.meanAnomalyAtEpoch].
    rewrite Hrate. ring.
Qed.


(** C4: with the speed factor at [0], two frames in a row, whatever their
    clock readings, frame times and camera, leave the six elements as they
    were, pass the same mean anomaly to the solver, and leave the same
    position; when the camera has not moved either, the whole object in
    [keplerElementsRef], opacity included, is the same after both. *)
Theorem paused_frames_identical (p : Props.t) (env1 env2 : Env)
    (clock1 delta1 clock2 delta2 : R) (s : State) :
  speedFactor env1 = 0 -> speedFactor env2 = 0 -> AU env2 = AU env1 ->
  let s1 := frame p env1 clock1 delta1 s in
  let s2 := frame p env2 clock2 delta2 s1 in
  Elements.six (keplerElementsRef s1) = Elements.six (keplerElementsRef s) /\
  Elements.six (keplerElementsRef s2) = Elements.six (keplerElementsRef s1) /\
  frameAnomaly p env2 clock2 delta2 s1 = frameAnomaly p env1 clock1 delta1 s /\
  planetGroupRef s2 = planetGroupRef s1 /\
  (cameraPosition env2 = cameraPosition env1 ->
   keplerElementsRef s2 = keplerElementsRef s1).
Proof.
  intros H1 H2 Hau s1 s2.
  assert (Hsix : forall env clock delta t, speedFactor env = 0 ->
            Elements.six (keplerElementsRef (frame p env clock delta t)) =
            Elements.six (keplerElementsRef t)).
  { intros env clock delta t H.
    rewrite (frame_six solveKepler). rewrite paused_integrated by exact H.
    destruct (Req_dec_T (AU env) 0); reflexivity. }
  assert (Hs1 : Elements.six (keplerElementsRef s1)
                = Elements.six (keplerElementsRef s))
    by (apply Hsix, H1).
  assert (Hrad : toRad (keplerElementsRef s1) = toRad (keplerElementsRef s)).
  { unfold Elements.six in Hs1. injection Hs1 as _ _ Hi HO Hw HM.
    unfold toRad. rewrite Hi, HO, Hw, HM. reflexivity. }
  assert (Hot : orbitType s1 = orbitType s)
    by (apply (frame_orbitType solveKepler)).
  assert (HM : frameAnomaly p env2 clock2 delta2 s1
               = frameAnomaly p env1 clock1 delta1 s).
  { unfold frameAnomaly. rewrite !paused_integrated by assumption.
    rewrite Hrad, Hot, H1, H2, !Rmult_0_r. reflexivity. }
  assert (He : Elements.eccentricity (keplerElementsRef s1)
               = Elements.eccentricity (keplerElementsRef s)).
  { unfold Elements.six in Hs1. injection Hs1 as _ He _ _ _ _. exact He. }
  assert (Ha : Elements.semiMajorAxis (keplerElementsRef s1)
               = Elements.semiMajorAxis (keplerElementsRef s)).
  { unfold Elements.six in Hs1. injection Hs1 as Ha _ _ _ _ _. exact Ha. }
  assert (Hsolve : frameSolve solveKepler p env2 clock2 delta2 s1
                   = frameSolve solveKepler p env1 clock1 delta1 s).
  { unfold frameSolve. rewrite HM, !paused_integrated by assumption.
    rewrite He. reflexivity. }
  repeat split.
  - exact Hs1.
  - apply Hsix, H2.
  - exact HM.
  - unfold s2. rewrite frame_position, Hsolve, Hau, Hot.
    rewrite paused_integrated by exact H2.
    assert (Hp1 := frame_position p env1 clock1 delta1 s).
    cbv zeta in Hp1. rewrite paused_integrated in Hp1 by exact H1.
    fold s1 in Hp1. rewrite Hp1.
    destruct (Req_dec_T (AU env1) 0); [reflexivity |].
    destruct (frameSolve solveKepler p env1 clock1 delta1 s) as [E |];
      [| reflexivity].
    destruct (planetGroupRef s) as [pos |]; [| reflexivity].
    f_equal. unfold pointAt. rewrite Hrad, He, Ha. reflexivity.
  - intros Hcam. unfold s2.
    rewrite frame_elements, Hsolve, Hau, Hot, Hcam.
    rewrite paused_integrated by exact H2.
    assert (Hp1 := frame_position p env1 clock1 delta1 s).
    assert (He1 := frame_elements p env1 clock1 delta1 s).
    cbv zeta in Hp1, He1.
    rewrite paused_integrated in Hp1, He1 by exact H1.
    fold s1 in Hp1, He1. rewrite Hp1.
    destruct (Req_dec_T (AU env1) 0); [reflexivity |].
    destruct (frameSolve solveKepler p env1 clock1 delta1 s) as [E |];
      [| reflexivity].
    destruct (planetGroupRef s) as [pos |]; [| reflexivity].
    rewrite (pointAt_ext (orbitType s) (keplerElementsRef s1)
               (keplerElementsRef s)), Hrad by assumption.
    rewrite He1. reflexivity.
Qed.


End Time.


(** ** The sampler of the orbit path *)

Lemma INR_segments : INR segments = 128.
Proof. unfold segments. rewrite INR_IZR_INZ. reflexivity. Qed.

Lemma INR_64 : INR 64 = 64.
Proof. rewrite INR_IZR_INZ. reflexivity. Qed.


(** C6, what the code does: for the hyperbolic type the loop runs over the
    indices [0 .. 64], that is 65 samples against 129 for the other types,
    and sweeps the mean anomaly [(idx - 64) * 0.1] from [-6.4] up to [0]:
    the range is bounded and ends at the periapsis, no sample lies beyond
    it, and the mirror image [6.4] of the first sample is never sampled. *)
Theorem hyperbolic_sweep_one_sided :
  maxIdx hyperbolic = 64%nat /\
  (S (maxIdx hyperbolic) < S (maxIdx elliptical))%nat /\
  sampleAnomaly hyperbolic 0 = -6.4 /\
  sampleAnomaly hyperbolic (maxIdx hyperbolic) = 0 /\
  (forall idx, (idx <= maxIdx hyperbolic)%nat ->
     sampleAnomaly hyperbolic idx = (INR idx - 64) * 0.1 /\
     -6.4 <= sampleAnomaly hyperbolic idx <= 0 /\
     sampleAnomaly hyperbolic idx <> - sampleAnomaly hyperbolic 0) /\
  (forall (solveKepler : R -> R -> option R) au s,
     orbitType s = hyperbolic ->
     orbitPoints solveKepler au s =
     samplePoints solveKepler au s (seq 0 65)).
Proof.
  assert (Hm : forall idx, sampleAnomaly hyperbolic idx = (INR idx - 64) * 0.1).
  { intros idx. unfold sampleAnomaly. rewrite INR_segments. f_equal. lra. }
  split; [reflexivity |].
  split; [unfold maxIdx, segments; apply Nat.lt_succ_r; repeat constructor |].
  split; [rewrite Hm; simpl; lra |].
  split; [rewrite Hm; cbn [maxIdx]; rewrite INR_64; lra |].
  split.
  - intros idx Hidx. cbn [maxIdx] in Hidx.
    apply le_INR in Hidx. rewrite INR_64 in Hidx.
    pose proof (pos_INR idx) as Hpos.
    rewrite !Hm. simpl (INR 0).
    split; [reflexivity |]. split; [lra |]. lra.
  - intros solveKepler au s Hs. unfold orbitPoints. rewrite Hs. reflexivity.
Qed.




Lemma atan2_0_pos (x : R) : 0 < x -> atan2 0 x = 0.
Proof.
  intros Hx. unfold atan2. destruct (Rgt_dec x 0); [| lra].
  unfold Rdiv. rewrite Rmult_0_l. apply atan_0.
Qed.








(** ** The statements at sample inputs *)

(** An elliptical body of eccentricity [0.5], mounted. *)
Lemma mounted_elliptical :
  orbitType (mounted (sampleBody 0.5 0 0 0 1)) = elliptical.
Proof.
  cbn. unfold classify. destruct (Rlt_dec 0.5 1); [reflexivity | lra].
Qed.

Lemma sampleEnv_AU (speed : R) (camera : Vector3) :
  AU (sampleEnv speed camera) <> 0.
Proof. cbn. lra. Qed.

(** C8 at a body whose eccentricity [0.1] drifts upwards. *)
Lemma eccentricity_nonneg_sample :
  let p := sampleBody 0.1 86400 0 0 1 in
  let env := sampleEnv 1 (mkVector3 0 0 0) in
  0 <= Elements.eccentricity
         (keplerElementsRef
            (frames circularSolver idEuler idApply idRotate idLookAt p
               [(env, 1, 1)] (mounted p))) /\
  (forall env' clock delta,
     AU env' <> 0 ->
     Elements.eccentricity
       (keplerElementsRef
          (useFrame circularSolver idEuler idApply idRotate idLookAt p env'
             clock delta (mounted p))) =
     Elements.eccentricity (keplerElementsRef (mounted p))
     + Props.eccentricityRate p * ((delta * speedFactor env') / 86400)).
Proof.
  cbv zeta.
  apply (eccentricity_nonneg_when_drift_up circularSolver idEuler idApply
           idRotate idLookAt).
  - cbn. lra.
  - constructor; [cbn; lra | constructor].
Defined.

(** C2 at a body whose semi-major axis drifts, with a solver that fails. *)
Lemma solver_failure_sample :
  let p := sampleBody 0.5 0 86400 0 1 in
  let env := sampleEnv 1 (mkVector3 0 0 0) in
  let s' :=
    useFrame failingSolver idEuler idApply idRotate idLookAt p env 1 1
      (mounted p) in
  outputs s' = outputs (mounted p) /\
  orbitType s' = orbitType (mounted p) /\
  keplerElementsRef s' =
    integrate p (keplerElementsRef (mounted p))
      ((1 * speedFactor env) / 86400).
Proof.
  cbv zeta.
  apply (solver_failure_keeps_outputs_not_elements failingSolver idEuler
           idApply idRotate idLookAt).
  - apply sampleEnv_AU.
  - reflexivity.
Defined.

(** C3 at semi-major axis [1], scale [1], observer and body at the
    origin. *)
Lemma opacity_attenuation_sample :
  let body := mkVector3 0 0 0 in
  let observer := mkVector3 0 0 0 in
  let distance := distanceTo observer body in
  (distance <= 1 * 1 * 4 -> opacityFor 1 1 distance = 1) /\
  (distance >= 1 * 1 * 10 -> opacityFor 1 1 distance = 0) /\
  0 <= opacityFor 1 1 distance <= 1 /\
  (forall body' observer' : Vector3,
     distance <= distanceTo observer' body' ->
     opacityFor 1 1 (distanceTo observer' body') <= opacityFor 1 1 distance).
Proof.
  cbv zeta.
  apply (opacity_attenuation 1 1 (mkVector3 0 0 0) (mkVector3 0 0 0)); lra.
Defined.

(** C10 at a circular body after one completed frame. *)
Lemma visible_and_selectable_sample :
  let p := sampleBody 0 0 0 0 1 in
  let env := sampleEnv 1 (mkVector3 0 0 0) in
  let s' :=
    frames circularSolver idEuler idApply idRotate idLookAt p []
      (useFrame circularSolver idEuler idApply idRotate idLookAt p env 1 1
         (mounted p)) in
  let opacity := Elements.opacity (keplerElementsRef s') in
  (forall g, groupRef s' = Some g -> visible g = true -> opacity > 0.05) /\
  (forall env', handleBodyClick p env' s' <> None -> opacity > 0.05) /\
  (opacity <= 0.05 ->
   (forall g, groupRef s' = Some g -> visible g = false) /\
   (forall env', handleBodyClick p env' s' = None)) /\
  (forall g, groupRef s' = Some g -> opacity > 0.05 -> visible g = true).
Proof.
  cbv zeta.
  apply (visible_and_selectable_only_above_threshold circularSolver idEuler
           idApply idRotate idLookAt).
  split; [apply sampleEnv_AU |]. split; discriminate.
Defined.

(** C4 at a paused body seen by two cameras at two clock readings. *)
Lemma paused_frames_sample :
  let p := sampleBody 0.5 86400 86400 30 1 in
  let env1 := sampleEnv 0 (mkVector3 0 0 0) in
  let env2 := sampleEnv 0 (mkVector3 1 0 0) in
  let s1 :=
    useFrame circularSolver idEuler idApply idRotate idLookAt p env1 1 1
      (mounted p) in
  let s2 :=
    useFrame circularSolver idEuler idApply idRotate idLookAt p env2 5 2 s1 in
  Elements.six (keplerElementsRef s1)
  = Elements.six (keplerElementsRef (mounted p)) /\
  Elements.six (keplerElementsRef s2) = Elements.six (keplerElementsRef s1) /\
  frameAnomaly p env2 5 2 s1 = frameAnomaly p env1 1 1 (mounted p) /\
  planetGroupRef s2 = planetGroupRef s1 /\
  (cameraPosition env2 = cameraPosition env1 ->
   keplerElementsRef s2 = keplerElementsRef s1).
Proof.
  cbv zeta.
  apply (paused_frames_identical circularSolver idEuler idApply idRotate
           idLookAt); reflexivity.
Defined.



(** ** A pause seen on a circular orbit *)

Lemma deg2rad_0 : deg2rad 0 = 0.
Proof. unfold deg2rad. field. Qed.

Lemma atan2_pos_0 (y : R) : 0 < y -> atan2 y 0 = PI / 2.
Proof.
  intros Hy. unfold atan2.
  destruct (Rgt_dec 0 0); [lra |].
  destruct (Rlt_dec 0 0); [lra |].
  destruct (Rgt_dec y 0); [reflexivity | lra].
Qed.

(** The point of the circular sample orbit for an eccentric anomaly [E] is
    [(cos nu, sin nu, 0)] for the true anomaly [nu] of [E]. *)
Lemma circular_point (E : R) :
  let p := sampleBody 0 0 0 0 1 in
  let el := keplerElementsRef (mounted p) in
  pointAt elliptical el (toRad el) 1 E =
  mkVector3
    (cos (2 * atan2 (sin (E / 2)) (cos (E / 2))))
    (sin (2 * atan2 (sin (E / 2)) (cos (E / 2))))
    0.
Proof.
  cbv zeta. unfold pointAt, anomalyRadius, toInertial.
  cbn [mounted mount keplerElementsRef initialElements sampleBody toRad
       Elements.eccentricity Elements.semiMajorAxis Elements.inclination
       Elements.longitudeOfAscendingNode Elements.argumentOfPeriapsis
       Props.eccentricity Props.semiMajorAxis Props.inclination
       Props.longitudeOfAscendingNode Props.argumentOfPeriapsis
       iRad ORad wRad vx vy vz].
  rewrite deg2rad_0, sin_0, cos_0.
  replace (1 + 0) with 1 by ring. replace (1 - 0) with 1 by ring.
  rewrite sqrt_1, !Rmult_1_l.
  f_equal; ring.
Qed.

(** C9 on a trace: a circular body of period one day is, half a day after
    the start, opposite its periapsis, at [(-1, 0, 0)]; a frame with the
    speed factor at [0] then puts it back at the position of elapsed time
    zero, [(1, 0, 0)], instead of holding it where it was. *)
Example pause_returns_to_epoch :
  let p := sampleBody 0 0 0 0 1 in
  let camera := mkVector3 0 0 0 in
  let s1 :=
    useFrame circularSolver idEuler idApply idRotate idLookAt p
      (sampleEnv 1 camera) 43200 0 (mounted p) in
  let s2 :=
    useFrame circularSolver idEuler idApply idRotate idLookAt p
      (sampleEnv 0 camera) 43201 1 s1 in
  planetGroupRef s1 = Some (mkVector3 (-1) 0 0) /\
  planetGroupRef s2 = Some (mkVector3 1 0 0).
Proof.
  cbv zeta.
  set (p := sampleBody 0 0 0 0 1).
  set (camera := mkVector3 0 0 0).
  assert (Hn : n p = 2 * PI / 86400) by (unfold n; cbn; f_equal; ring).
  assert (Hint : forall env delta, integrated p env delta (mounted p)
                                   = mounted p).
  { intros env delta. unfold integrated, integrate. cbn.
    unfold mounted, mount, setElements, initialElements. cbn.
    repeat f_equal; ring. }
  assert (Hot : orbitType (mounted p) = elliptical).
  { cbn. unfold classify. destruct (Rlt_dec 0 1); [reflexivity | lra]. }
  assert (H1 : planetGroupRef
                 (useFrame circularSolver idEuler idApply idRotate idLookAt p
                    (sampleEnv 1 camera) 43200 0 (mounted p))
               = Some (mkVector3 (-1) 0 0)).
  { rewrite frame_position. cbv zeta.
    destruct (Req_dec_T (AU (sampleEnv 1 camera)) 0) as [H | _];
      [cbn in H; lra |].
    unfold frameSolve, frameAnomaly, circularSolver. rewrite !Hint, Hot, Hn.
    cbn [planetGroupRef mounted mount AU sampleEnv speedFactor meanAnomaly].
    rewrite circular_point. cbn [toRad M0Rad mounted mount keplerElementsRef
      initialElements Elements.meanAnomalyAtEpoch sampleBody
      Props.meanAnomalyAtEpoch].
    change (Props.meanAnomalyAtEpoch p) with 0. rewrite deg2rad_0.
    replace ((0 + 2 * PI / 86400 * (43200 * 1)) / 2) with (PI / 2) by field.
    rewrite sin_PI2, cos_PI2, atan2_pos_0 by lra.
    replace (2 * (PI / 2)) with PI by field.
    rewrite sin_PI, cos_PI. reflexivity. }
  split; [exact H1 |].
  set (s1 := useFrame circularSolver idEuler idApply idRotate idLookAt p
               (sampleEnv 1 camera) 43200 0 (mounted p)) in *.
  assert (Hs1 : integrated p (sampleEnv 0 camera) 1 s1 = s1)
    by (apply paused_integrated; reflexivity).
  assert (Hot1 : orbitType s1 = elliptical)
    by (unfold s1; rewrite frame_orbitType; exact Hot).
  assert (Hsix : Elements.six (keplerElementsRef s1)
                 = Elements.six (keplerElementsRef (mounted p))).
  { unfold s1. rewrite (frame_six circularSolver), Hint.
    destruct (Req_dec_T _ 0); reflexivity. }
  unfold Elements.six in Hsix. injection Hsix as Ha He Hi HO Hw HM.
  rewrite frame_position. cbv zeta.
  destruct (Req_dec_T (AU (sampleEnv 0 camera)) 0) as [H | _];
    [cbn in H; lra |].
  unfold frameSolve, frameAnomaly, circularSolver. rewrite Hs1, Hot1, H1.
  assert (Hrad : toRad (keplerElementsRef s1)
                 = toRad (keplerElementsRef (mounted p)))
    by (unfold toRad; rewrite Hi, HO, Hw, HM; reflexivity).
  rewrite (pointAt_ext elliptical (keplerElementsRef s1)
             (keplerElementsRef (mounted p))) by assumption.
  rewrite Hrad, Hn.
  cbn [AU sampleEnv speedFactor meanAnomaly].
  rewrite circular_point.
  cbn [toRad M0Rad mounted mount keplerElementsRef
      initialElements Elements.meanAnomalyAtEpoch].
  change (Props.meanAnomalyAtEpoch p) with 0.
  rewrite deg2rad_0.
  replace ((0 + 2 * PI / 86400 * (43201 * 0)) / 2) with 0 by field.
  rewrite sin_0, cos_0, atan2_0_pos by lra.
  rewrite Rmult_0_r, sin_0, cos_0. reflexivity.
Qed.

(** ** Further properties: distance of the body to the focus *)










Lemma samplePoints_Forall (solveKepler : R -> R -> option R) (au : R)
    (s : State) (P : Vector3 -> Prop) (idxs : list nat) :
  (forall E,
     P (pointAt (orbitType s) (keplerElementsRef s) (updatedElementsRad s)
          au E)) ->
  Forall P (samplePoints solveKepler au s idxs).
Proof.
  intros HP. induction idxs as [| idx rest IH]; simpl.
  - constructor.
  - unfold samplePoint at 1.
    destruct (solveKepler _ _) as [E |]; [constructor; [apply HP | exact IH]
                                         | exact IH].
Qed.



(** The eccentricity is in the range of the formulas of the orbit type:
    no square root of a negative number is taken. *)
Definition inDomain (ot : OrbitType) (e : R) : Prop :=
  match ot with
  | hyperbolic => 1 <= e
  | _ => 0 <= e <= 1
  end.

(** None of the six elements has a rate. *)
Definition noDrift (p : Props.t) : Prop :=
  Props.semiMajorAxisRate p = 0 /\
  Props.eccentricityRate p = 0 /\
  Props.inclinationRate p = 0 /\
  Props.longitudeOfAscendingNodeRate p = 0 /\
  Props.argumentOfPeriapsisRate p = 0 /\
  Props.meanAnomalyAtEpochRate p = 0.

Lemma noDrift_integrate (p : Props.t) (el : Elements.t) (x : R) :
  noDrift p -> Elements.six (integrate p el x) = Elements.six el.
Proof.
  intros (Ha & He & Hi & HO & Hw & HM). unfold Elements.six, integrate.
  cbn [Elements.semiMajorAxis Elements.eccentricity Elements.inclination
       Elements.longitudeOfAscendingNode Elements.argumentOfPeriapsis
       Elements.meanAnomalyAtEpoch].
  rewrite Ha, He, Hi, HO, Hw, HM, !Rmult_0_l, !Rplus_0_r. reflexivity.
Qed.

Lemma six_toRad (el el' : Elements.t) :
  Elements.six el = Elements.six el' -> toRad el = toRad el'.
Proof.
  unfold Elements.six. intros H. injection H as _ _ Hi HO Hw HM.
  unfold toRad. rewrite Hi, HO, Hw, HM. reflexivity.
Qed.

Section FrameDistance.

Variable solveKepler : R -> R -> option R.
Variable setFromEuler : R -> R -> R -> Quaternion.
Variable applyQuaternion : Vector3 -> Quaternion -> Vector3.
Variable rotateOnAxis : Quaternion -> Vector3 -> R -> Quaternion.
Variable lookAt : Quaternion -> Vector3 -> Vector3 -> Quaternion.

Local Abbreviation frame :=
  (useFrame solveKepler setFromEuler applyQuaternion rotateOnAxis lookAt).

(** The position a completed frame leaves. *)
Lemma completed_position (p : Props.t) (env : Env) (clock delta : R)
    (s : State) :
  completes solveKepler p env clock delta s ->
  exists E,
    frameSolve solveKepler p env clock delta s = Some E /\
    planetGroupRef (frame p env clock delta s) =
    Some (pointAt (orbitType s)
            (keplerElementsRef (integrated p env delta s))
            (toRad (keplerElementsRef (integrated p env delta s)))
            (AU env) E).
Proof.
  intros (Hau & Hsolve & Hpg).
  rewrite (frame_position solveKepler). cbv zeta.
  destruct (Req_dec_T (AU env) 0); [contradiction |].
  destruct (frameSolve solveKepler p env clock delta s) as [E |];
    [| contradiction].
  destruct (planetGroupRef s); [| contradiction].
  exists E. split; reflexivity.
Qed.



Lemma samplePoints_In (au : R) (s : State) (idxs : list nat) (idx : nat)
    (pt : Vector3) :
  In idx idxs -> samplePoint solveKepler au s idx = Some pt ->
  In pt (samplePoints solveKepler au s idxs).
Proof.
  intros Hin Hpt. induction idxs as [| i rest IH]; [contradiction |].
  simpl. destruct Hin as [-> | Hin].
  - rewrite Hpt. left. reflexivity.
  - destruct (samplePoint solveKepler au s i); [right |]; apply IH, Hin.
Qed.

(** Without rates the frames leave the six elements as they are. *)
Lemma noDrift_frames (p : Props.t) (ticks : list (Env * R * R)) (s : State) :
  noDrift p ->
  Elements.six
    (keplerElementsRef
       (frames solveKepler setFromEuler applyQuaternion rotateOnAxis lookAt
          p ticks s))
  = Elements.six (keplerElementsRef s).
Proof.
  intros Hno. revert s.
  induction ticks as [| [[env clock] delta] rest IH]; intros s.
  - reflexivity.
  - cbn [frames]. rewrite IH.
    rewrite (frame_six solveKepler).
    destruct (Req_dec_T (AU env) 0); [reflexivity |].
    apply noDrift_integrate, Hno.
Qed.

(** X5: a body without rates is on the path drawn for it.  The path the
    component draws for the scale [AU] is the one memoised from the state of
    the first render; for a body none of whose elements has a rate, created
    with a non-negative eccentricity, after any frames the position that a
    completed frame leaves is a point of that path whenever the mean
    anomaly of the frame is the one of a sample of the sweep. *)
Theorem body_on_drawn_path (p : Props.t) (g : option Group)
    (pg : option Vector3) (pl rg : option Quaternion) (lb : option Vector3)
    (ticks : list (Env * R * R)) (env : Env) (clock delta : R) (idx : nat) :
  let s0 := mount p g pg pl rg lb in
  let s :=
    frames solveKepler setFromEuler applyQuaternion rotateOnAxis lookAt
      p ticks s0 in
  noDrift p ->
  0 <= Props.eccentricity p ->
  (idx <= maxIdx (orbitType s0))%nat ->
  frameAnomaly p env clock delta s = sampleAnomaly (orbitType s0) idx ->
  completes solveKepler p env clock delta s ->
  exists pos,
    planetGroupRef (frame p env clock delta s) = Some pos /\
    In pos (orbitPoints solveKepler (AU env) s0).
Proof.
  intros s0 s Hno He Hidx HM Hc.
  destruct (completed_position p env clock delta s Hc) as (E & HE & Hpos).
  assert (Hot : orbitType s = orbitType s0)
    by (apply (run_orbitType solveKepler)).
  assert (H6 : Elements.six (keplerElementsRef (integrated p env delta s))
               = Elements.six (keplerElementsRef s0)).
  { unfold integrated. cbn [setElements keplerElementsRef].
    rewrite noDrift_integrate by exact Hno. apply noDrift_frames, Hno. }
  assert (Hrad : toRad (keplerElementsRef (integrated p env delta s))
                 = updatedElementsRad s0)
    by (rewrite (six_toRad _ _ H6); reflexivity).
  assert (Ha : Elements.semiMajorAxis
                 (keplerElementsRef (integrated p env delta s))
               = Elements.semiMajorAxis (keplerElementsRef s0)).
  { pose proof H6 as H. unfold Elements.six in H.
    injection H as H _ _ _ _ _. exact H. }
  assert (Hecc : Elements.eccentricity
                   (keplerElementsRef (integrated p env delta s))
                 = Elements.eccentricity (keplerElementsRef s0)).
  { pose proof H6 as H. unfold Elements.six in H.
    injection H as _ H _ _ _ _. exact H. }
  rewrite Hot, Hrad in Hpos.
  rewrite (pointAt_ext (orbitType s0) _ (keplerElementsRef s0)) in Hpos
    by assumption.
  eexists. split; [exact Hpos |].
  unfold orbitPoints. apply samplePoints_In with (idx := idx).
  - apply in_seq. split; [apply Nat.le_0_l |]. simpl. apply Nat.lt_succ_r, Hidx.
  - unfold samplePoint. unfold frameSolve in HE.
    rewrite HM, Hecc in HE. rewrite HE. reflexivity.
Qed.

End FrameDistance.

(** ** Further properties: the number of points of the path *)

(** The solver succeeds on the sample of index [idx]. *)
Definition sampleKept (solveKepler : R -> R -> option R) (s : State)
    (idx : nat) : bool :=
  match solveKepler (sampleAnomaly (orbitType s) idx)
          (Elements.eccentricity (keplerElementsRef s)) with
  | Some _ => true
  | None => false
  end.

Lemma samplePoints_length (solveKepler : R -> R -> option R) (au : R)
    (s : State) (idxs : list nat) :
  List.length (samplePoints solveKepler au s idxs) =
  List.length (filter (sampleKept solveKepler s) idxs).
Proof.
  induction idxs as [| idx rest IH]; [reflexivity |].
  simpl. unfold samplePoint, sampleKept.
  destruct (solveKepler _ _); simpl; rewrite IH; reflexivity.
Qed.

(** X6: the path has one point for each index of the sweep on which the
    solver succeeds, the others being skipped: never more than
    [maxIdx + 1] points (129, or 65 for the hyperbolic type), exactly that
    many when the solver succeeds on the whole sweep, and none when it
    fails on the whole sweep. *)
Theorem orbitPoints_length (solveKepler : R -> R -> option R) (au : R)
    (s : State) :
  let sweep := seq 0 (S (maxIdx (orbitType s))) in
  List.length (orbitPoints solveKepler au s) =
    List.length (filter (sampleKept solveKepler s) sweep) /\
  (List.length (orbitPoints solveKepler au s) <= S (maxIdx (orbitType s)))%nat
  /\
  (List.length (orbitPoints solveKepler au s) <= 129)%nat /\
  ((forall idx, In idx sweep -> sampleKept solveKepler s idx = true) ->
   List.length (orbitPoints solveKepler au s) = S (maxIdx (orbitType s))) /\
  ((forall idx, In idx sweep -> sampleKept solveKepler s idx = false) ->
   orbitPoints solveKepler au s = []).
Proof.
  intros sweep.
  assert (Hlen : List.length (orbitPoints solveKepler au s) =
                 List.length (filter (sampleKept solveKepler s) sweep))
    by apply samplePoints_length.
  assert (Hle : (List.length (orbitPoints solveKepler au s)
                 <= S (maxIdx (orbitType s)))%nat).
  { rewrite Hlen. etransitivity; [apply filter_length_le |].
    unfold sweep. rewrite length_seq. apply Nat.le_refl. }
  split; [exact Hlen |]. split; [exact Hle |]. split; [| split].
  - etransitivity; [exact Hle |].
    destruct (orbitType s); cbn [maxIdx]; unfold segments;
      repeat constructor.
  - intros Hall. rewrite Hlen.
    rewrite (forallb_filter_id (sampleKept solveKepler s) sweep).
    + unfold sweep. apply length_seq.
    + apply forallb_forall. exact Hall.
  - intros Hnone. apply length_zero_iff_nil. rewrite Hlen.
    apply length_zero_iff_nil.
    assert (Hnil : forall l,
              (forall idx, In idx l -> sampleKept solveKepler s idx = false) ->
              filter (sampleKept solveKepler s) l = []).
    { induction l as [| idx rest IH]; intros Hl; [reflexivity |].
      simpl. rewrite (Hl idx (or_introl eq_refl)).
      apply IH. intros i Hi. apply Hl. right. exact Hi. }
    apply Hnil, Hnone.
Qed.

(** ** Further properties: the drift over many frames *)

Section Drift.

Variable solveKepler : R -> R -> option R.
Variable setFromEuler : R -> R -> R -> Quaternion.
Variable applyQuaternion : Vector3 -> Quaternion -> Vector3.
Variable rotateOnAxis : Quaternion -> Vector3 -> R -> Quaternion.
Variable lookAt : Quaternion -> Vector3 -> Vector3 -> Quaternion.

Local Abbreviation frame :=
  (useFrame solveKepler setFromEuler applyQuaternion rotateOnAxis lookAt).
Local Abbreviation run :=
  (frames solveKepler setFromEuler applyQuaternion rotateOnAxis lookAt).

(** X9: while [AU] is not set, frames change nothing at all: no element is
    integrated and nothing is written to the scene. *)
Theorem frames_without_scale_do_nothing (p : Props.t)
    (ticks : list (Env * R * R)) (s : State) :
  Forall (fun tick : Env * R * R => AU (fst (fst tick)) = 0) ticks ->
  run p ticks s = s.
Proof.
  intros Hticks. revert s.
  induction Hticks as [| [[env clock] delta] rest Hau _ IH]; intros s.
  - reflexivity.
  - cbn [frames]. cbn [fst] in Hau. unfold useFrame at 1.
    destruct (Req_dec_T (AU env) 0); [apply IH | contradiction].
Qed.


(** X11: along any frames from the first render the stored opacity stays
    in [[0, 1]], whatever the scale, the camera and the solver do. *)
Theorem opacity_stays_in_unit_interval (p : Props.t) (g : option Group)
    (pg : option Vector3) (pl rg : option Quaternion) (lb : option Vector3)
    (ticks : list (Env * R * R)) :
  0 <= Elements.opacity
         (keplerElementsRef (run p ticks (mount p g pg pl rg lb))) <= 1.
Proof.
  assert (H : forall l s,
            0 <= Elements.opacity (keplerElementsRef s) <= 1 ->
            0 <= Elements.opacity (keplerElementsRef (run p l s)) <= 1).
  { induction l as [| [[env clock] delta] rest IH]; intros s Hs.
    - exact Hs.
    - cbn [frames]. apply IH.
      destruct (frame_cases solveKepler setFromEuler applyQuaternion
                  rotateOnAxis lookAt p env clock delta s) as
        [[_ ->] | [(_ & _ & ->) | (_ & E & pos & _ & _ & ->)]].
      + exact Hs.
      + exact Hs.
      + apply opacityFor_bounds. }
  apply H. cbn. lra.
Qed.

End Drift.

(** ** Further properties: label size, fading and visibility *)

(** X12: the font size of the label is [1.5] up to a camera distance of
    [10], [500] from [12000] on, the straight line between the two in
    between, never outside [[1.5, 500]], and it does not decrease when the
    camera moves away. *)
Theorem fontSize_range_and_growth (cameraDistance : R) :
  1.5 <= fontSizeFor cameraDistance <= 500 /\
  (cameraDistance <= 10 -> fontSizeFor cameraDistance = 1.5) /\
  (12000 <= cameraDistance -> fontSizeFor cameraDistance = 500) /\
  (10 < cameraDistance < 12000 ->
   fontSizeFor cameraDistance
   = 1.5 + (cameraDistance - 10) / 11990 * 498.5) /\
  (forall farther, cameraDistance <= farther ->
     fontSizeFor cameraDistance <= fontSizeFor farther).
Proof.
  assert (Hline : forall d, 10 < d < 12000 ->
            fontSizeFor d = 1.5 + (d - 10) / 11990 * 498.5).
  { intros d [Hlo Hhi]. unfold fontSizeFor.
    destruct (Rgt_dec d 10); [| lra].
    destruct (Rlt_dec d 12000); [| lra].
    cbn [andb]. unfold clamp, Rmax, Rmin.
    replace (12000 - 10) with 11990 by lra.
    replace (500 - 1.5) with 498.5 by lra.
    assert (Hq : 0 < (d - 10) / 11990 < 1).
    { split.
      - apply Rdiv_lt_0_compat; lra.
      - apply Rmult_lt_reg_r with 11990; [lra |].
        unfold Rdiv. rewrite Rmult_assoc, Rinv_l by lra. lra. }
    destruct (Rle_dec 500 _); destruct (Rle_dec 1.5 _); lra. }
  assert (Hlow : forall d, d <= 10 -> fontSizeFor d = 1.5).
  { intros d Hd. unfold fontSizeFor.
    destruct (Rgt_dec d 10); [lra |]. cbn [andb].
    destruct (Rge_dec d 12000); [lra | reflexivity]. }
  assert (Hhigh : forall d, 12000 <= d -> fontSizeFor d = 500).
  { intros d Hd. unfold fontSizeFor.
    destruct (Rgt_dec d 10); [| lra].
    destruct (Rlt_dec d 12000); [lra |]. cbn [andb].
    destruct (Rge_dec d 12000); [reflexivity | lra]. }
  assert (Hq : forall d, 10 < d < 12000 -> 0 < (d - 10) / 11990 < 1).
  { intros d [Hlo Hhi]. split.
    - apply Rdiv_lt_0_compat; lra.
    - apply Rmult_lt_reg_r with 11990; [lra |].
      unfold Rdiv. rewrite Rmult_assoc, Rinv_l by lra. lra. }
  assert (Hrange : forall d, 1.5 <= fontSizeFor d <= 500).
  { intros d.
    destruct (Rle_lt_dec d 10) as [H | H]; [rewrite Hlow by exact H; lra |].
    destruct (Rle_lt_dec 12000 d) as [H' | H'];
      [rewrite Hhigh by exact H'; lra |].
    rewrite Hline by lra. pose proof (Hq d (conj H H')). lra. }
  split; [apply Hrange |]. split; [apply Hlow |]. split; [apply Hhigh |].
  split; [apply Hline |].
  intros farther Hfar.
  destruct (Rle_lt_dec cameraDistance 10) as [H | H].
  { rewrite (Hlow cameraDistance) by exact H. apply Hrange. }
  destruct (Rle_lt_dec 12000 farther) as [H' | H'].
  { rewrite (Hhigh farther) by exact H'. apply Hrange. }
  rewrite !Hline by lra.
  assert ((cameraDistance - 10) / 11990 <= (farther - 10) / 11990).
  { unfold Rdiv. apply Rmult_le_compat_r; [| lra].
    apply Rlt_le, Rinv_0_lt_compat. lra. }
  lra.
Qed.

Lemma lerp_between (x y : R) :
  0 <= x <= 1 -> 0 <= y <= 1 -> 0 <= lerp x y 0.1 <= 1.
Proof. intros Hx Hy. unfold lerp. lra. Qed.

(** X13: what the fading does to one descendant for a target opacity in
    [[0, 1]].  A descendant that is not a mesh is left as it is.  A mesh
    keeps its name and type, is made transparent, keeps its opacity in
    [[0, 1]] when it was there, ends at most at [0.4] when it is a
    [Line2] and at most at [0.63 + 0.1 * target] when it is the label;
    any other mesh moves a tenth of the way to the target. *)
Theorem fade_one_child (newOpacity : R) (child : Child) :
  0 <= newOpacity <= 1 ->
  let child' := fade newOpacity child in
  (isMesh child = false -> child' = child) /\
  isMesh child' = isMesh child /\
  childName child' = childName child /\
  childType child' = childType child /\
  (isMesh child = true ->
   materialTransparent child' = true /\
   (0 <= materialOpacity child <= 1 -> 0 <= materialOpacity child' <= 1) /\
   (childType child = "Line2"%string -> materialOpacity child' <= 0.4) /\
   (childName child = "label"%string -> childType child <> "Line2"%string ->
    materialOpacity child' <= 0.63 + 0.1 * newOpacity) /\
   (childName child <> "label"%string -> childType child <> "Line2"%string ->
    materialOpacity child' - newOpacity
    = 0.9 * (materialOpacity child - newOpacity))).
Proof.
  intros Ht child'. unfold child', fade.
  destruct (isMesh child) eqn:Hmesh.
  2: { repeat split; try reflexivity; try exact Hmesh; discriminate. }
  cbn [isMesh childName childType materialOpacity materialTransparent].
  split; [discriminate |]. split; [reflexivity |].
  split; [reflexivity |]. split; [reflexivity |].
  intros _. split; [reflexivity |].
  destruct (String.eqb_spec (childName child) "label") as [Hn | Hn];
    destruct (String.eqb_spec (childType child) "Line2") as [Hty | Hty].
  - repeat split; try congruence; unfold lerp, Rmin in *;
      repeat match goal with
      | |- context [Rle_dec ?a ?b] => destruct (Rle_dec a b)
      end; try lra; intros; lra.
  - repeat split; try congruence; unfold lerp, Rmin in *;
      repeat match goal with
      | |- context [Rle_dec ?a ?b] => destruct (Rle_dec a b)
      end; try lra; intros; lra.
  - repeat split; try congruence; unfold lerp, Rmin in *;
      repeat match goal with
      | |- context [Rle_dec ?a ?b] => destruct (Rle_dec a b)
      end; try lra; intros; lra.
  - repeat split; try congruence; unfold lerp, Rmin in *;
      repeat match goal with
      | |- context [Rle_dec ?a ?b] => destruct (Rle_dec a b)
      end; try lra; intros; lra.
Qed.

(** The opacity exceeds the threshold of visibility exactly below [9.7]
    times the product of the semi-major axis and the scale. *)
Lemma opacityFor_threshold (a au d : R) :
  0 < a -> 0 < au ->
  (opacityFor a au d > 0.05 <-> d < a * au * 9.7).
Proof.
  intros Ha Hau.
  assert (Hk : 0 < a * au) by (apply Rmult_lt_0_compat; assumption).
  unfold opacityFor.
  destruct (Rgt_dec d (a * au * 4)) as [Hd | Hd]; [| split; intros; lra].
  rewrite fade_line by exact Hk.
  assert (Hi : 0 < / (6 * (a * au))) by (apply Rinv_0_lt_compat; lra).
  assert (Hone : 6 * (a * au) * / (6 * (a * au)) = 1)
    by (apply Rinv_r; lra).
  set (i := / (6 * (a * au))) in *.
  unfold Rdiv, clamp, Rmax, Rmin. fold i.
  destruct (Rle_dec 1 ((10 * (a * au) - d) * i));
    destruct (Rle_dec 0 _); split; intros H; try nra.
Qed.

Lemma fade_child_keeps (t : R) (c : Child) :
  isMesh (fade t c) = isMesh c /\
  childName (fade t c) = childName c /\
  childType (fade t c) = childType c.
Proof.
  unfold fade. destruct (isMesh c) eqn:Hm; repeat split; assumption.
Qed.

Lemma fade_child_mesh (t : R) (c : Child) :
  isMesh (fade t c) = true ->
  materialTransparent (fade t c) = true /\
  (childType (fade t c) = "Line2"%string -> materialOpacity (fade t c) <= 0.4).
Proof.
  unfold fade. destruct (isMesh c) eqn:Hm; [| congruence].
  cbn [isMesh childType materialOpacity materialTransparent].
  intros _. split; [reflexivity |]. intros Hty.
  rewrite Hty. cbn [String.eqb Ascii.eqb Bool.eqb]. apply Rmin_r.
Qed.

Lemma fade_keeps_others (t : R) (l : list Child) :
  filter (fun c => negb (isMesh c)) (map (fade t) l)
  = filter (fun c => negb (isMesh c)) l.
Proof.
  induction l as [| c rest IH]; [reflexivity |].
  cbn [map filter].
  rewrite (proj1 (fade_child_keeps t c)).
  destruct (isMesh c) eqn:Hm; cbn [negb].
  - exact IH.
  - rewrite IH. f_equal. unfold fade. rewrite Hm. reflexivity.
Qed.

Section Fading.

Variable solveKepler : R -> R -> option R.
Variable setFromEuler : R -> R -> R -> Quaternion.
Variable applyQuaternion : Vector3 -> Quaternion -> Vector3.
Variable rotateOnAxis : Quaternion -> Vector3 -> R -> Quaternion.
Variable lookAt : Quaternion -> Vector3 -> Vector3 -> Quaternion.

Local Abbreviation frame :=
  (useFrame solveKepler setFromEuler applyQuaternion rotateOnAxis lookAt).
Local Abbreviation draw :=
  (render setFromEuler applyQuaternion rotateOnAxis lookAt).

(** What a completed frame does to the outer group. *)
Lemma completed_group (p : Props.t) (env : Env) (clock delta : R) (s : State) :
  completes solveKepler p env clock delta s ->
  exists pos,
    planetGroupRef (frame p env clock delta s) = Some pos /\
    let newOpacity :=
      opacityFor (Props.semiMajorAxis p) (AU env)
        (distanceTo (cameraPosition env) pos) in
    Elements.opacity (keplerElementsRef (frame p env clock delta s))
    = newOpacity /\
    textFontSize (frame p env clock delta s)
    = fontSizeFor (length3 (cameraPosition env)) /\
    labelRef (frame p env clock delta s) =
      match labelRef s with
      | None => None
      | Some _ =>
          Some (multiplyScalar (normalize pos)
                  ((Props.semiMajorAxis p * AU env) / 20))
      end /\
    groupRef (frame p env clock delta s) =
      match groupRef s with
      | None => None
      | Some g =>
          Some {| visible := if Rgt_dec newOpacity 0.05 then true else false;
                  children := map (fade newOpacity) (children g) |}
      end.
Proof.
  intros (Hau & Hsolve & Hpg).
  destruct (frame_cases solveKepler setFromEuler applyQuaternion rotateOnAxis
              lookAt p env clock delta s) as
    [[Hau' _] | [(_ & [Hn | Hn] & _) | (_ & E & pos & _ & _ & ->)]];
    try contradiction.
  eexists. split; [reflexivity |]. cbv zeta.
  split; [reflexivity |]. split; [reflexivity |]. split; reflexivity.
Qed.

(** X14: after a completed frame of a body whose eccentricity is in the
    range of its orbit type (semi-major axis and scale positive), the outer
    group is visible, and a click focuses the body unless the camera is the
    ship, whenever the camera is closer to the new position of the body than
    [9.7 * semiMajorAxis * AU]; it is hidden, and a click does nothing,
    whenever the camera is farther than that (both up to a relative margin
    of [1e-9] on the distance). *)
Theorem visible_within_reach (p : Props.t) (env : Env) (clock delta : R)
    (s : State) :
  0 < Props.semiMajorAxis p -> 0 < AU env ->
  inDomain (orbitType s)
    (Elements.eccentricity (keplerElementsRef (integrated p env delta s))) ->
  completes solveKepler p env clock delta s ->
  let s' := frame p env clock delta s in
  let reach := Props.semiMajorAxis p * AU env * 9.7 in
  exists pos,
    planetGroupRef s' = Some pos /\
    let distance := distanceTo (cameraPosition env) pos in
    (distance <= reach * (1 - 0.000000001) ->
     (forall g, groupRef s' = Some g -> visible g = true) /\
     (forall env', cameraType env' <> "ship"%string ->
        handleBodyClick p env' s' = Some p)) /\
    (reach * (1 + 0.000000001) <= distance ->
     (forall g, groupRef s' = Some g -> visible g = false) /\
     (forall env', handleBodyClick p env' s' = None)).
Proof.
  intros Ha Hau _ Hc s' reach.
  destruct (completed_group p env clock delta s Hc)
    as (pos & Hpos & Hop & _ & _ & Hg).
  cbv zeta in Hop, Hg. exists pos. split; [exact Hpos |]. cbv zeta.
  pose proof (opacityFor_threshold (Props.semiMajorAxis p) (AU env)
                (distanceTo (cameraPosition env) pos) Ha Hau) as Hthr.
  assert (Hk : 0 < reach)
    by (unfold reach; apply Rmult_lt_0_compat;
        [apply Rmult_lt_0_compat; assumption | lra]).
  fold reach in Hthr.
  split.
  - intros Hnear.
    assert (Hgt : opacityFor (Props.semiMajorAxis p) (AU env)
                    (distanceTo (cameraPosition env) pos) > 0.05)
      by (apply Hthr; nra).
    split.
    + intros g Hgs. unfold s' in Hgs. rewrite Hg in Hgs.
      destruct (groupRef s) as [g0 |]; [| discriminate].
      injection Hgs as <-. cbn [visible].
      destruct (Rgt_dec _ 0.05); [reflexivity | contradiction].
    + intros env' Hship. unfold handleBodyClick.
      destruct (String.eqb_spec (cameraType env') "ship"); [contradiction |].
      unfold s'. rewrite Hop.
      destruct (Rgt_dec _ 0.05); [reflexivity | contradiction].
  - intros Hfar.
    assert (Hle : ~ opacityFor (Props.semiMajorAxis p) (AU env)
                      (distanceTo (cameraPosition env) pos) > 0.05)
      by (intros H; apply Hthr in H; nra).
    split.
    + intros g Hgs. unfold s' in Hgs. rewrite Hg in Hgs.
      destruct (groupRef s) as [g0 |]; [| discriminate].
      injection Hgs as <-. cbn [visible].
      destruct (Rgt_dec _ 0.05); [contradiction | reflexivity].
    + intros env'. unfold handleBodyClick.
      destruct (String.eqb (cameraType env') "ship"); [reflexivity |].
      unfold s'. rewrite Hop.
      destruct (Rgt_dec _ 0.05); [contradiction | reflexivity].
Qed.

(** X15: after a completed frame every mesh under the outer group is
    transparent, every [Line2] mesh has an opacity of at most [0.4], the
    descendants are as many as before with their names and types, and those
    that are not meshes are untouched. *)
Theorem completed_frame_fades_group (p : Props.t) (env : Env)
    (clock delta : R) (s : State) (g : Group) :
  completes solveKepler p env clock delta s ->
  groupRef s = Some g ->
  exists g',
    groupRef (frame p env clock delta s) = Some g' /\
    List.length (children g') = List.length (children g) /\
    map childName (children g') = map childName (children g) /\
    map childType (children g') = map childType (children g) /\
    Forall
      (fun c =>
         isMesh c = true ->
         materialTransparent c = true /\
         (childType c = "Line2"%string -> materialOpacity c <= 0.4))
      (children g') /\
    filter (fun c => negb (isMesh c)) (children g')
    = filter (fun c => negb (isMesh c)) (children g).
Proof.
  intros Hc Hg.
  destruct (completed_group p env clock delta s Hc)
    as (pos & _ & _ & _ & _ & Hg').
  cbv zeta in Hg'. rewrite Hg in Hg'.
  eexists. split; [exact Hg' |]. cbn [children].
  set (t := opacityFor _ _ _).
  assert (Ht : 0 <= t <= 1) by apply opacityFor_bounds.
  split; [apply length_map |].
  split.
  { rewrite map_map. apply map_ext. intros c.
    apply (fade_child_keeps t c). }
  split.
  { rewrite map_map. apply map_ext. intros c.
    apply (fade_child_keeps t c). }
  split.
  - apply Forall_forall. intros c' Hin.
    apply in_map_iff in Hin as (c & <- & _).
    intros Hm. apply fade_child_mesh; assumption.
  - apply fade_keeps_others.
Qed.

End Fading.

(** ** Further properties: pointer, focus and what is rendered *)

(** X16: the cursor tells what a click would do.  With the ship camera the
    three pointer handlers do nothing; otherwise leaving the body resets the
    cursor, and moving over the body sets the pointer cursor exactly when a
    click there would focus the body, that is when the stored opacity
    exceeds [0.05]. *)
Theorem cursor_matches_click (p : Props.t) (env : Env) (s : State) :
  (cameraType env = "ship"%string ->
   handleBodyClick p env s = None /\
   handlePointerMove env s = None /\
   handlePointerOut env = None) /\
  (cameraType env <> "ship"%string ->
   handlePointerOut env = Some "auto"%string /\
   (handleBodyClick p env s = Some p <->
    Elements.opacity (keplerElementsRef s) > 0.05)) /\
  (handleBodyClick p env s = Some p <->
   handlePointerMove env s = Some "pointer"%string) /\
  (handleBodyClick p env s = None <-> handlePointerMove env s = None).
Proof.
  unfold handleBodyClick, handlePointerMove, handlePointerOut.
  destruct (String.eqb_spec (cameraType env) "ship") as [Hs | Hs];
    destruct (Rgt_dec (Elements.opacity (keplerElementsRef s)) 0.05);
    repeat split; intros; try reflexivity; try congruence; try assumption;
    try contradiction.
Qed.

Lemma eqb_name_refl (p : Props.t) :
  String.eqb (Props.name p) (Props.name p) = true.
Proof. apply String.eqb_refl. Qed.

(** X17: what is rendered.  The component renders nothing exactly for a
    body of type [dwarf] while dwarfs are switched off.  Otherwise the
    focused body is drawn as the sphere of its radius, without its orbit
    line and without label; a body that is not focused is drawn as the thin
    ring of inner radius [semiMajorAxis * AU / 20], never with its rings;
    so the label and the rings are never rendered together. *)
Theorem view_of_focus (sp : Space) (p : Props.t) (au : R) (context : bool) :
  (view sp p au context = None <->
   Props.type p = "dwarf"%string /\ showDwarf sp = false) /\
  (forall v, view sp p au context = Some v ->
     (thisFocusedBodyOf sp p = true ->
      viewBody v = SphereGeometry (Props.radius p) 32 32 /\
      lineVisible v = false /\ viewLabel v = false) /\
     (thisFocusedBodyOf sp p = false ->
      viewBody v =
        RingGeometry (Props.semiMajorAxis p * au / 20)
          (Props.semiMajorAxis p * au * 1.02 / 20) 32 /\
      viewRing v = None /\
      lineVisible v = showOrbits sp p /\
      viewLabel v = showLabels sp p) /\
     (viewRing v <> None ->
      Props.rings p <> None /\ context = true /\ viewLabel v = false) /\
     (viewLabel v = true -> viewRing v = None)).
Proof.
  unfold view. split.
  - destruct (String.eqb_spec (Props.type p) "dwarf") as [Ht | Ht];
      destruct (showDwarf sp); cbn [andb negb]; split;
      try discriminate; try (intros [? ?]; congruence); auto.
  - intros v Hv.
    destruct (String.eqb (Props.type p) "dwarf" && negb (showDwarf sp));
      [discriminate |].
    injection Hv as <-.
    cbn [viewBody viewRing lineVisible viewLabel]. unfold bodyMesh, ringMesh.
    destruct (thisFocusedBodyOf sp p); destruct (Props.rings p) as [r |];
      destruct context; cbn [andb negb];
      repeat split; intros; try reflexivity; try congruence;
      try apply andb_false_r; try apply andb_true_r;
      match goal with
      | H : _ && false = true |- _ => rewrite andb_false_r in H; discriminate
      end.
Qed.

(** X18: a click that is accepted focuses the body clicked: once the
    context holds the data the click passed to [setFocusedBody], the
    component finds itself focused and is rendered as the sphere, without
    orbit line and label.  As the comparison is on the name, any body of the
    same name is focused with it. *)
Theorem click_then_focused (p : Props.t) (env : Env) (s : State)
    (data : Props.t) (sp : Space) (au : R) (context : bool) :
  handleBodyClick p env s = Some data ->
  focusedBody sp = Some data ->
  thisFocusedBodyOf sp p = true /\
  (forall q, Props.name q = Props.name p -> thisFocusedBodyOf sp q = true) /\
  (forall v, view sp p au context = Some v ->
     viewBody v = highDetailMesh p /\
     lineVisible v = false /\ viewLabel v = false).
Proof.
  intros Hclick Hsp.
  assert (Hdata : data = p).
  { unfold handleBodyClick in Hclick.
    destruct (String.eqb (cameraType env) "ship"); [discriminate |].
    destruct (Rgt_dec _ 0.05); congruence. }
  subst data.
  assert (Hfoc : thisFocusedBodyOf sp p = true)
    by (unfold thisFocusedBodyOf; rewrite Hsp; apply eqb_name_refl).
  split; [exact Hfoc |]. split.
  - intros q Hq. unfold thisFocusedBodyOf. rewrite Hsp, Hq.
    apply eqb_name_refl.
  - intros v Hv. unfold view in Hv.
    destruct (String.eqb (Props.type p) "dwarf" && negb (showDwarf sp));
      [discriminate |].
    injection Hv as <-.
    cbn [viewBody lineVisible viewLabel]. unfold bodyMesh.
    rewrite Hfoc. cbn [negb andb].
    repeat split. apply andb_false_r.
Qed.

(** ** Further properties: the period and the label *)

Section Period.

Variable solveKepler : R -> R -> option R.
Variable setFromEuler : R -> R -> R -> Quaternion.
Variable applyQuaternion : Vector3 -> Quaternion -> Vector3.
Variable rotateOnAxis : Quaternion -> Vector3 -> R -> Quaternion.
Variable lookAt : Quaternion -> Vector3 -> Vector3 -> Quaternion.

Local Abbreviation frame :=
  (useFrame solveKepler setFromEuler applyQuaternion rotateOnAxis lookAt).
Local Abbreviation run :=
  (frames solveKepler setFromEuler applyQuaternion rotateOnAxis lookAt).

Lemma length3_multiplyScalar (v : Vector3) (k : R) :
  length3 (multiplyScalar v k) = Rabs k * length3 v.
Proof.
  unfold length3, multiplyScalar. cbn [vx vy vz].
  replace (vx v * k * (vx v * k) + vy v * k * (vy v * k)
           + vz v * k * (vz v * k))
    with (Rsqr k * (vx v * vx v + vy v * vy v + vz v * vz v))
    by (unfold Rsqr; ring).
  rewrite sqrt_mult_alt by apply Rle_0_sqr.
  rewrite sqrt_Rsqr_abs. reflexivity.
Qed.

Lemma length3_nonneg (v : Vector3) : 0 <= length3 v.
Proof. unfold length3. apply sqrt_pos. Qed.

Lemma length3_normalize (v : Vector3) :
  length3 (normalize v) = if Req_dec_T (length3 v) 0 then 0 else 1.
Proof.
  unfold normalize. rewrite length3_multiplyScalar.
  pose proof (length3_nonneg v) as Hpos.
  destruct (Req_dec_T (length3 v) 0) as [H0 | H0].
  - rewrite H0. ring.
  - rewrite Rabs_right.
    + field. exact H0.
    + apply Rle_ge. apply Rlt_le. apply Rdiv_lt_0_compat; lra.
Qed.

(** X20: after a completed frame with the label attached, of a body whose
    eccentricity is in the range of its orbit type, the label is put at the
    unit vector of the body's position times the offset
    [semiMajorAxis * AU / 20] (the inner radius of the ring that stands for
    the body): wherever the body is on its orbit the label is at the
    distance [|offset|] of the origin (within a relative [1e-9]), on the
    side of the body for a non-negative offset; when the body is at the
    origin the label is there too. *)
Theorem label_on_ray_at_offset (p : Props.t) (env : Env) (clock delta : R)
    (s : State) (old : Vector3) :
  inDomain (orbitType s)
    (Elements.eccentricity (keplerElementsRef (integrated p env delta s))) ->
  completes solveKepler p env clock delta s ->
  labelRef s = Some old ->
  let s' := frame p env clock delta s in
  let labelOffset := (Props.semiMajorAxis p * AU env) / 20 in
  exists pos label,
    planetGroupRef s' = Some pos /\
    labelRef s' = Some label /\
    label = multiplyScalar (normalize pos) labelOffset /\
    (length3 pos <> 0 ->
     Rabs (length3 label - Rabs labelOffset)
     <= 0.000000001 * Rabs labelOffset) /\
    (0 <= labelOffset ->
     0 <= vx pos * vx label /\ 0 <= vy pos * vy label /\
     0 <= vz pos * vz label) /\
    (length3 pos = 0 -> length3 label = 0).
Proof.
  intros _ Hc Hlab s' labelOffset.
  destruct (completed_group solveKepler setFromEuler applyQuaternion
              rotateOnAxis lookAt p env clock delta s Hc)
    as (pos & Hpos & _ & _ & Hl & _).
  rewrite Hlab in Hl. exists pos. eexists.
  split; [exact Hpos |]. split; [exact Hl |]. fold labelOffset.
  split; [reflexivity |]. split; [| split].
  - intros Hne. rewrite length3_multiplyScalar, length3_normalize.
    destruct (Req_dec_T (length3 pos) 0); [contradiction |].
    replace (Rabs labelOffset * 1 - Rabs labelOffset) with 0 by ring.
    rewrite Rabs_R0. apply Rmult_le_pos; [lra | apply Rabs_pos].
  - intros Hoff. unfold normalize, multiplyScalar. cbn [vx vy vz].
    pose proof (length3_nonneg pos) as Hlen.
    set (k := 1 / (if Req_dec_T (length3 pos) 0 then 1 else length3 pos)).
    assert (Hk : 0 <= k).
    { unfold k. destruct (Req_dec_T (length3 pos) 0).
      - lra.
      - apply Rlt_le, Rdiv_lt_0_compat; lra. }
    assert (Hko : 0 <= k * labelOffset) by (apply Rmult_le_pos; assumption).
    repeat split.
    + replace (vx pos * (vx pos * k * labelOffset))
        with (vx pos * vx pos * (k * labelOffset)) by ring.
      apply Rmult_le_pos; [apply Rle_0_sqr | exact Hko].
    + replace (vy pos * (vy pos * k * labelOffset))
        with (vy pos * vy pos * (k * labelOffset)) by ring.
      apply Rmult_le_pos; [apply Rle_0_sqr | exact Hko].
    + replace (vz pos * (vz pos * k * labelOffset))
        with (vz pos * vz pos * (k * labelOffset)) by ring.
      apply Rmult_le_pos; [apply Rle_0_sqr | exact Hko].
  - intros H0. rewrite length3_multiplyScalar, length3_normalize.
    destruct (Req_dec_T (length3 pos) 0); [ring | contradiction].
Qed.

(** X21: the angles of the drawn path are those of the first render.
    After any frames, whatever the rates, the memoised angles are the
    creation-time inclination, node and periapsis in radians, and every
    point of [orbitPoints] is computed with them, with the orbit type of
    the creation-time eccentricity, but with the eccentricity and the
    semi-major axis as drifted so far. *)
Theorem path_angles_fixed_at_mount (p : Props.t) (g : option Group)
    (pg : option Vector3) (pl rg : option Quaternion) (lb : option Vector3)
    (ticks : list (Env * R * R)) :
  let s := run p ticks (mount p g pg pl rg lb) in
  updatedElementsRad s = toRad (initialElements p) /\
  (forall au,
     Forall
       (fun pt =>
          exists E,
            pt = pointAt (classify (Props.eccentricity p))
                   (keplerElementsRef s) (toRad (initialElements p)) au E)
       (orbitPoints solveKepler au s)).
Proof.
  intros s.
  assert (Hrad : forall l t, updatedElementsRad (run p l t)
                             = updatedElementsRad t).
  { induction l as [| [[env clock] delta] rest IH]; intros t.
    - reflexivity.
    - cbn [frames]. rewrite IH.
      destruct (frame_cases solveKepler setFromEuler applyQuaternion
                  rotateOnAxis lookAt p env clock delta t) as
        [[_ ->] | [(_ & _ & ->) | (_ & E & pos & _ & _ & ->)]];
        reflexivity. }
  assert (Hr : updatedElementsRad s = toRad (initialElements p))
    by (unfold s; rewrite Hrad; reflexivity).
  assert (Ho : orbitType s = classify (Props.eccentricity p))
    by (unfold s; rewrite run_orbitType; reflexivity).
  split; [exact Hr |].
  intros au. unfold orbitPoints. apply samplePoints_Forall.
  intros E. exists E. rewrite Hr, Ho. reflexivity.
Qed.

End Period.

(** ** The further properties at sample inputs *)


Lemma completes_sample (p : Props.t) (speed clock delta : R) :
  completes circularSolver p (sampleEnv speed (mkVector3 0 0 0)) clock delta
    (mounted p).
Proof. split; [apply sampleEnv_AU |]. split; discriminate. Qed.





(** X5 at the first sample of an elliptical body without rates, at the
    clock reading [0] after an earlier frame. *)
Lemma body_on_drawn_path_sample :
  let p := sampleBody 0.5 0 0 0 1 in
  let env := sampleEnv 1 (mkVector3 0 0 0) in
  let s :=
    frames circularSolver idEuler idApply idRotate idLookAt p [(env, 7, 1)]
      (mounted p) in
  exists pos,
    planetGroupRef
      (useFrame circularSolver idEuler idApply idRotate idLookAt p env 0 0 s)
    = Some pos /\
    In pos (orbitPoints circularSolver (AU env) (mounted p)).
Proof.
  cbv zeta.
  apply (body_on_drawn_path circularSolver idEuler idApply idRotate idLookAt
           (sampleBody 0.5 0 0 0 1) (Some (mkGroup true []))
           (Some (mkVector3 0 0 0)) (Some (mkQuaternion 0 0 0 1)) None None
           [(sampleEnv 1 (mkVector3 0 0 0), 7, 1)]
           (sampleEnv 1 (mkVector3 0 0 0)) 0 0 0).
  - repeat split.
  - cbn. lra.
  - apply Nat.le_0_l.
  - rewrite (frameAnomaly_reads (sampleBody 0.5 0 0 0 1) _ _ _
               (mounted (sampleBody 0.5 0 0 0 1))).
    + unfold frameAnomaly.
      change (orbitType (integrated _ _ _ _))
        with (orbitType (mounted (sampleBody 0.5 0 0 0 1))).
      fold (mounted (sampleBody 0.5 0 0 0 1)).
      rewrite mounted_elliptical.
      unfold meanAnomaly, sampleAnomaly, toRad, deg2rad, n.
      rewrite INR_segments. cbn. field.
    + apply (run_orbitType circularSolver).
    + apply (epoch_anomaly_kept circularSolver). reflexivity.
  - split; [apply sampleEnv_AU |]. split; [discriminate |].
    cbn [frames]. unfold useFrame. cbn [AU sampleEnv].
    destruct (Req_dec_T 1 0); [lra |]. cbn. discriminate.
Defined.

(** A context in which [AU] is not set. *)
Definition unsetEnv : Env :=
  {| speedFactor := 1;
     AU := 0;
     cameraType := "orbit";
     cameraPosition := mkVector3 0 0 0;
     thisFocusedBody := false |}.

(** X9 at two frames without [AU]. *)
Lemma frames_without_scale_sample :
  let p := sampleBody 0.1 86400 86400 0 1 in
  frames circularSolver idEuler idApply idRotate idLookAt p
    [(unsetEnv, 1, 1); (unsetEnv, 2, 1)] (mounted p) = mounted p.
Proof.
  cbv zeta.
  apply (frames_without_scale_do_nothing circularSolver idEuler idApply
           idRotate idLookAt).
  repeat constructor.
Defined.


(** X13 at a label of opacity [1] fading to the target [1 / 2]. *)
Lemma fade_one_child_sample :
  let child := mkChild true "label" "Mesh" 1 false in
  let child' := fade (1 / 2) child in
  (isMesh child = false -> child' = child) /\
  isMesh child' = isMesh child /\
  childName child' = childName child /\
  childType child' = childType child /\
  (isMesh child = true ->
   materialTransparent child' = true /\
   (0 <= materialOpacity child <= 1 -> 0 <= materialOpacity child' <= 1) /\
   (childType child = "Line2"%string -> materialOpacity child' <= 0.4) /\
   (childName child = "label"%string -> childType child <> "Line2"%string ->
    materialOpacity child' <= 0.63 + 0.1 * (1 / 2)) /\
   (childName child <> "label"%string -> childType child <> "Line2"%string ->
    materialOpacity child' - 1 / 2
    = 0.9 * (materialOpacity child - 1 / 2))).
Proof.
  cbv zeta.
  apply (fade_one_child (1 / 2) (mkChild true "label" "Mesh" 1 false)).
  lra.
Defined.

(** X14 at a circular body seen from the origin. *)
Lemma visible_within_reach_sample :
  let p := sampleBody 0 0 0 0 1 in
  let env := sampleEnv 1 (mkVector3 0 0 0) in
  let s' :=
    useFrame circularSolver idEuler idApply idRotate idLookAt p env 1 1
      (mounted p) in
  let reach := Props.semiMajorAxis p * AU env * 9.7 in
  exists pos,
    planetGroupRef s' = Some pos /\
    let distance := distanceTo (cameraPosition env) pos in
    (distance <= reach * (1 - 0.000000001) ->
     (forall g, groupRef s' = Some g -> visible g = true) /\
     (forall env', cameraType env' <> "ship"%string ->
        handleBodyClick p env' s' = Some p)) /\
    (reach * (1 + 0.000000001) <= distance ->
     (forall g, groupRef s' = Some g -> visible g = false) /\
     (forall env', handleBodyClick p env' s' = None)).
Proof.
  cbv zeta.
  apply (visible_within_reach circularSolver idEuler idApply idRotate
           idLookAt (sampleBody 0 0 0 0 1) (sampleEnv 1 (mkVector3 0 0 0))
           1 1 (mounted (sampleBody 0 0 0 0 1))).
  - cbn. lra.
  - cbn. lra.
  - cbn. unfold classify. destruct (Rlt_dec 0 1); [cbn; lra | lra].
  - apply completes_sample.
Defined.

(** X15 at a group holding an orbit line and a label. *)
Lemma completed_frame_fades_sample :
  let p := sampleBody 0 0 0 0 1 in
  let env := sampleEnv 1 (mkVector3 0 0 0) in
  let g :=
    mkGroup true
      [mkChild true "" "Line2" 1 false; mkChild true "label" "Mesh" 1 false;
       mkChild false "" "Group" 1 false] in
  let s :=
    mount p (Some g) (Some (mkVector3 0 0 0)) (Some (mkQuaternion 0 0 0 1))
      None None in
  exists g',
    groupRef
      (useFrame circularSolver idEuler idApply idRotate idLookAt p env 1 1 s)
    = Some g' /\
    List.length (children g') = List.length (children g) /\
    map childName (children g') = map childName (children g) /\
    map childType (children g') = map childType (children g) /\
    Forall
      (fun c =>
         isMesh c = true ->
         materialTransparent c = true /\
         (childType c = "Line2"%string -> materialOpacity c <= 0.4))
      (children g') /\
    filter (fun c => negb (isMesh c)) (children g')
    = filter (fun c => negb (isMesh c)) (children g).
Proof.
  cbv zeta.
  apply (completed_frame_fades_group circularSolver idEuler idApply idRotate
           idLookAt).
  - split; [apply sampleEnv_AU |]. split; discriminate.
  - reflexivity.
Defined.

(** A component whose stored opacity is [1]. *)
Definition opaque (p : Props.t) : State :=
  setElements (mounted p) (setOpacity (initialElements p) 1).

Lemma click_opaque (p : Props.t) (camera : Vector3) :
  handleBodyClick p (sampleEnv 1 camera) (opaque p) = Some p.
Proof.
  unfold handleBodyClick. cbn.
  destruct (Rgt_dec 1 0.05); [reflexivity | lra].
Qed.

(** X18 at a click on an opaque body. *)
Lemma click_then_focused_sample :
  let p := sampleBody 0 0 0 0 1 in
  let sp := mkSpace (Some p) true true true true true in
  thisFocusedBodyOf sp p = true /\
  (forall q, Props.name q = Props.name p -> thisFocusedBodyOf sp q = true) /\
  (forall v, view sp p 1 true = Some v ->
     viewBody v = highDetailMesh p /\
     lineVisible v = false /\ viewLabel v = false).
Proof.
  cbv zeta.
  apply (click_then_focused (sampleBody 0 0 0 0 1)
           (sampleEnv 1 (mkVector3 0 0 0)) (opaque (sampleBody 0 0 0 0 1))
           (sampleBody 0 0 0 0 1)).
  - apply click_opaque.
  - reflexivity.
Defined.

(** X20 at a circular body whose label is attached. *)
Lemma label_on_ray_sample :
  let p := sampleBody 0 0 0 0 1 in
  let env := sampleEnv 1 (mkVector3 0 0 0) in
  let s :=
    mount p (Some (mkGroup true [])) (Some (mkVector3 0 0 0))
      (Some (mkQuaternion 0 0 0 1)) None (Some (mkVector3 0 0 0)) in
  let s' :=
    useFrame circularSolver idEuler idApply idRotate idLookAt p env 1 1 s in
  let labelOffset := (Props.semiMajorAxis p * AU env) / 20 in
  exists pos label,
    planetGroupRef s' = Some pos /\
    labelRef s' = Some label /\
    label = multiplyScalar (normalize pos) labelOffset /\
    (length3 pos <> 0 ->
     Rabs (length3 label - Rabs labelOffset)
     <= 0.000000001 * Rabs labelOffset) /\
    (0 <= labelOffset ->
     0 <= vx pos * vx label /\ 0 <= vy pos * vy label /\
     0 <= vz pos * vz label) /\
    (length3 pos = 0 -> length3 label = 0).
Proof.
  cbv zeta.
  apply (label_on_ray_at_offset circularSolver idEuler idApply idRotate
           idLookAt) with (old := mkVector3 0 0 0).
  - cbn. unfold classify. destruct (Rlt_dec 0 1); [cbn; lra | lra].
  - split; [apply sampleEnv_AU |]. split; discriminate.
  - reflexivity.
Defined.
